(** * format_bib.py: a shallow embedding and its specification

    The script reads a BibTeX file (through bibtexparser), drops the entries
    whose title was already seen, derives a fresh citation key for every
    entry it keeps and writes the result to [<input>.reformatted].

    Python strings are sequences of Unicode code points; they are modelled
    as lists of code points.  The character classes used by [str.strip],
    [str.split] and by the regular expressions [\s] and [\d] are the ones of
    CPython (Unicode 14 tables). *)

From Stdlib Require Import ZArith NArith List Bool Lia.
From Stdlib Require Import Strings.String Strings.Ascii Numbers.DecimalString.
From stdpp Require Import base option list gmap.

Local Open Scope N_scope.

(** ** Python strings *)

Module Py.

Abbreviation str := (list N).

(** ASCII literal of the source, as code points. *)
Definition lit (s : String.string) : str :=
  List.map N_of_ascii (list_ascii_of_string s).

Definition in_ranges (rs : list (N * N)) (c : N) : bool :=
  existsb (fun r => (fst r <=? c) && (c <=? snd r)) rs.

(** [Py_UNICODE_ISSPACE]: what [str.isspace], [str.strip], [str.split] and
    the regex class [\s] use. *)
Definition isspace (c : N) : bool :=
  in_ranges [(9, 13); (28, 32); (133, 133); (160, 160); (5760, 5760);
             (8192, 8202); (8232, 8233); (8239, 8239); (8287, 8287);
             (12288, 12288)] c.

(** [Py_UNICODE_ISDECIMAL]: the regex class [\d] on [str] patterns, that is
    the general category Nd. *)
Definition isdecimal (c : N) : bool :=
  in_ranges [(48, 57); (1632, 1641); (1776, 1785); (1984, 1993);
    (2406, 2415); (2534, 2543); (2662, 2671); (2790, 2799); (2918, 2927);
    (3046, 3055); (3174, 3183); (3302, 3311); (3430, 3439); (3558, 3567);
    (3664, 3673); (3792, 3801); (3872, 3881); (4160, 4169); (4240, 4249);
    (6112, 6121); (6160, 6169); (6470, 6479); (6608, 6617); (6784, 6793);
    (6800, 6809); (6992, 7001); (7088, 7097); (7232, 7241); (7248, 7257);
    (42528, 42537); (43216, 43225); (43264, 43273); (43472, 43481);
    (43504, 43513); (43600, 43609); (44016, 44025); (65296, 65305);
    (66720, 66729); (68912, 68921); (69734, 69743); (69872, 69881);
    (69942, 69951); (70096, 70105); (70384, 70393); (70736, 70745);
    (70864, 70873); (71248, 71257); (71360, 71369); (71472, 71481);
    (71904, 71913); (72016, 72025); (72784, 72793); (73040, 73049);
    (73120, 73129); (92768, 92777); (92864, 92873); (93008, 93017);
    (120782, 120831); (123200, 123209); (123632, 123641); (125264, 125273);
    (130032, 130041)] c.

Definition is_ascii_digit (c : N) : bool := (48 <=? c) && (c <=? 57).

(** The regex class [[a-zA-Z]]. *)
Definition is_ascii_letter (c : N) : bool :=
  ((65 <=? c) && (c <=? 90)) || ((97 <=? c) && (c <=? 122)).

(** [string.punctuation]. *)
Definition punctuation : str :=
  [33; 34; 35; 36; 37; 38; 39; 40; 41; 42; 43; 44; 45; 46; 47; 58; 59; 60;
   61; 62; 63; 64; 91; 92; 93; 94; 95; 96; 123; 124; 125; 126].

Definition space : N := 32.
Definition newline : N := 10.
Definition comma : N := 44.
Definition lbrace : N := 123.
Definition rbrace : N := 125.

Definition eqb (s t : str) : bool := bool_decide (s = t).

(** [s.replace(c, '')] for a one-character [c]. *)
Definition remove_char (c : N) (s : str) : str :=
  List.filter (fun d => negb (d =? c)) s.

(** [s.lstrip()], [s.rstrip()], [s.strip()]. *)
Fixpoint lstrip (s : str) : str :=
  match s with
  | [] => []
  | c :: s' => if isspace c then lstrip s' else s
  end.

Fixpoint rstrip (s : str) : str :=
  match s with
  | [] => []
  | c :: s' =>
      match rstrip s' with
      | [] => if isspace c then [] else [c]
      | r => c :: r
      end
  end.

Definition strip (s : str) : str := rstrip (lstrip s).

(** [s.rstrip(chars)] for a one-character [chars]. *)
Fixpoint rstrip_char (c : N) (s : str) : str :=
  match s with
  | [] => []
  | d :: s' =>
      match rstrip_char c s' with
      | [] => if d =? c then [] else [d]
      | r => d :: r
      end
  end.

(** [re.sub(r'\s+', ' ', s)]: every maximal run of white space becomes one
    space.  [in_run] tells that the previous character belonged to the run
    being replaced. *)
Fixpoint sub_ws_from (in_run : bool) (s : str) : str :=
  match s with
  | [] => []
  | c :: s' =>
      if isspace c
      then (if in_run then sub_ws_from true s' else space :: sub_ws_from true s')
      else c :: sub_ws_from false s'
  end.

Definition sub_ws (s : str) : str := sub_ws_from false s.

(** [s.endswith(t)]. *)
Definition endswith (s t : str) : bool :=
  bool_decide (drop (length s - length t)%nat s = t).

(** [sep.join(parts)]. *)
Fixpoint join (sep : str) (parts : list str) : str :=
  match parts with
  | [] => []
  | [p] => p
  | p :: ps => p ++ sep ++ join sep ps
  end.

(** [str(n)] for an [int]. *)
Definition str_of_int (z : Z) : str :=
  lit (NilZero.string_of_int (Z.to_int z)).

(** [s.split()]: the maximal runs of characters that are not white space.
    [word] is the run read so far. *)
Fixpoint split_from (word : str) (s : str) : list str :=
  match s with
  | [] => match word with [] => [] | _ => [word] end
  | c :: s' =>
      if isspace c
      then match word with
           | [] => split_from [] s'
           | _ => word :: split_from [] s'
           end
      else split_from (word ++ [c]) s'
  end.

Definition split (s : str) : list str := split_from [] s.

(** [s.split(c)[0]] for a one-character [c]: the text before the first [c]. *)
Fixpoint before_char (c : N) (s : str) : str :=
  match s with
  | [] => []
  | d :: s' => if d =? c then [] else d :: before_char c s'
  end.

(** [c in s] for a one-character [c]. *)
Definition contains (c : N) (s : str) : bool := existsb (N.eqb c) s.

(** Python's slice [l[lo:hi]] for integers [lo] and [hi] of either sign. *)
Definition slice_index (len i : Z) : Z :=
  if (i <? 0)%Z then Z.max (i + len) 0 else Z.min i len.

Definition slice {A} (l : list A) (lo hi : Z) : list A :=
  let len := Z.of_nat (length l) in
  let lo' := slice_index len lo in
  let hi' := slice_index len hi in
  take (Z.to_nat (hi' - lo')) (drop (Z.to_nat lo') l).

(** [re.fullmatch(r'\d{4}', s) is not None]. *)
Definition fullmatch_d4 (s : str) : bool :=
  (length s =? 4)%nat && forallb isdecimal s.

(** [str.lower] and [str.upper] restricted to ASCII letters: what Python
    computes on a string of ASCII characters. *)
Definition ascii_lower_char (c : N) : N :=
  if (65 <=? c) && (c <=? 90) then c + 32 else c.
Definition ascii_upper_char (c : N) : N :=
  if (97 <=? c) && (c <=? 122) then c - 32 else c.
Definition ascii_lower (s : str) : str := List.map ascii_lower_char s.
Definition ascii_upper (s : str) : str := List.map ascii_upper_char s.

(** [print(s, file=out)]: the text after the call. *)
Definition print (s : str) (out : str) : str := out ++ s ++ [newline].

End Py.

(** ** Title normalizer: [clean_title_for_key] *)

Definition clean_title_for_key (title : Py.str) : Py.str :=
  match title with
  | [] => []
  | _ =>
      let cleaned := Py.remove_char Py.rbrace (Py.remove_char Py.lbrace title) in
      Py.strip (Py.sub_ws cleaned)
  end.

(** ** Data model: what [bibtexparser.parse_file] hands to the script *)

Module Field.
Record t := mk { key : Py.str; value : Py.str }.
End Field.

Module Entry.
Record t := mk {
  entry_type : Py.str;
  key : Py.str;
  fields : list Field.t;
  start_line : Z;
  raw : option Py.str
}.

(** bibtexparser's [Entry.fields_dict]: the dictionary
    [{field.key: field for field in fields}]; of two fields with the same
    key the later one stays. *)
Definition fields_dict (e : t) : gmap Py.str Field.t :=
  list_to_map (reverse (List.map (fun f => (Field.key f, f)) (fields e))).
End Entry.

(** A parsed block is an [Entry], a [DuplicateBlockKeyBlock] (an entry whose
    key was already used earlier in the file), or any other block (string,
    preamble, comment, other parse failure). *)
Inductive Block :=
| EntryBlock (e : Entry.t)
| DuplicateBlockKeyBlock (key : Py.str) (start_line : Z) (raw : option Py.str)
| OtherBlock (start_line : Z) (raw : option Py.str).

Definition is_entry (b : Block) : bool :=
  match b with EntryBlock _ => true | _ => false end.

Definition block_raw (b : Block) : option Py.str :=
  match b with
  | EntryBlock e => Entry.raw e
  | DuplicateBlockKeyBlock _ _ raw => raw
  | OtherBlock _ raw => raw
  end.

(** The entries of a block sequence, in block order. *)
Definition entries (blocks : list Block) : list Entry.t :=
  omap (fun b => match b with EntryBlock e => Some e | _ => None end) blocks.

Definition STOP_WORDS : gset Py.str :=
  list_to_set (List.map Py.lit
    ["a"; "an"; "the"; "and"; "or"; "but"; "in"; "on"; "at"; "to"; "for";
     "of"; "with"; "by"; "is"; "are"; "was"; "were"]%string).

#[global] Arguments Py.isspace : simpl never.
#[global] Arguments Py.isdecimal : simpl never.
#[global] Arguments Py.lit : simpl never.

(** ** Concrete inputs used in the examples *)

Definition field (k v : String.string) : Field.t :=
  Field.mk (Py.lit k) (Py.lit v).

Definition entry (type key : String.string) (fields : list Field.t) (line : Z)
    : Entry.t :=
  Entry.mk (Py.lit type) (Py.lit key) fields line None.

(** The pipeline [en_core_web_sm] is not installed: [spacy.load] raises. *)
Definition no_nlp : Py.str -> option (list (Py.str * Py.str)) := fun _ => None.

Definition smith_deep : Entry.t :=
  entry "article" "k1"
    [field "title" "Deep Learning for X"; field "author" "Smith, J.";
     field "year" "2020"] 1.

Definition smith_graph : Entry.t :=
  entry "article" "k2"
    [field "author" "Smith, A."; field "title" "Graph {N}eural Networks";
     field "year" "2020"] 6.

Definition smith_deep_again : Entry.t :=
  entry "book" "k3" [field "title" "deep LEARNING for X"] 11.

Definition title_only : Entry.t :=
  entry "book" "k4" [field "title" "Only Title"] 14.

Definition a_comment : Block := OtherBlock 0 (Some (Py.lit "% my references")).

Definition library_A : list Block :=
  [a_comment; EntryBlock smith_deep; EntryBlock smith_graph;
   EntryBlock smith_deep_again; EntryBlock title_only].

Definition library_D : list Block :=
  [EntryBlock smith_deep;
   DuplicateBlockKeyBlock (Py.lit "k1") 6 (Some (Py.lit "@article{k1, title = {Other}}"))].

Definition year_mixed_case : Entry.t :=
  entry "article" "y1" [field "title" "T"; field "Year" "1990"] 0.

(** The year 1990 in Arabic-Indic digits. *)
Definition year_arabic_indic : Entry.t :=
  entry "article" "y2"
    [field "title" "T"; Field.mk (Py.lit "year") [1633; 1641; 1641; 1632]] 0.

Definition year_padded : Entry.t :=
  entry "article" "y3" [field "title" "T"; field "year" " 1990 "] 0.

Definition eight_words : list Py.str :=
  List.map Py.lit
    ["alpha"; "bravo"; "charlie"; "delta"; "echo"; "foxtrot"; "golf";
     "hotel"]%string.

Definition smith_2020 (key title : String.string) (line : Z) : Entry.t :=
  entry "article" key
    [field "title" title; field "author" "Smith, J."; field "year" "2020"] line.

(** Four entries with the same author and year whose titles start alike, so
    that the fourth goes through three escalation steps. *)
Definition library_walk : list Block :=
  [EntryBlock (smith_2020 "w1" "Alpha Bravo" 0);
   EntryBlock (smith_2020 "w2" "Alpha Bravo Charlie" 5);
   EntryBlock (smith_2020 "w3" "Alpha Bravo Charlie Delta" 10);
   EntryBlock (smith_2020 "w4"
                 "Alpha Bravo Charlie Delta Echo Foxtrot Golf Hotel" 15)].

Definition stop_words_only : Entry.t :=
  entry "article" "e2"
    [field "title" "The Of And"; field "author" "Smith, K."; field "year" "2020"] 6.

(** Scenario E after an entry with the same author and year. *)
Definition library_E : list Block :=
  [EntryBlock smith_deep; EntryBlock stop_words_only].

Definition no_title_1 : Entry.t :=
  entry "misc" "n1" [field "author" "Doe, J."; field "year" "2001"] 1.

Definition no_title_2 : Entry.t :=
  entry "misc" "n2" [field "title" "{ }"; field "author" "Roe, R."] 5.

Definition library_titleless : list Block :=
  [a_comment; EntryBlock no_title_1; EntryBlock no_title_2].

(** A second entry reported on the line of [smith_deep], with the same title
    in another case. *)
Definition same_line_dup : Entry.t :=
  entry "book" "k3" [field "title" "deep LEARNING for X"] 1.

Definition library_same_line : list Block :=
  [EntryBlock smith_deep; EntryBlock same_line_dup].

Definition doe_titled : Entry.t :=
  entry "misc" "d0"
    [field "title" "Some Title"; field "author" "Doe, J."; field "year" "2001"] 0.

(** An entry without a title after an entry with its author and year. *)
Definition library_titleless_stuck : list Block :=
  [EntryBlock doe_titled; EntryBlock no_title_1].

(** A second entry without a title reported on the line of [no_title_1]. *)
Definition no_title_same_line : Entry.t :=
  entry "misc" "n3" [field "author" "Roe, R."] 1.

Definition library_titleless_same_line : list Block :=
  [EntryBlock no_title_1; EntryBlock no_title_same_line].

(** Settles a closed decidable proposition by evaluating its decision. *)
Ltac by_computation := apply (bool_decide_unpack _); vm_compute; exact I.


(** ** The functions of the script

    [str.lower] and [str.upper] follow the Unicode case mappings of the
    Python runtime, and the part-of-speech tagger is the spaCy pipeline
    [en_core_web_sm]; neither belongs to the script, which is modelled over
    them.  [spacy_nlp text] is [None] when loading or running the pipeline
    raises, and otherwise the tokens of [text] as pairs
    [(token.text, token.pos_)]. *)

Module Info.
Record t := mk { title : Py.str; orig_key : Py.str; line : Z }.
End Info.

(** The three dictionaries of the main script.  [key_usage] keeps Python's
    insertion order, which the conflict report follows. *)
Record State := mkState {
  seen_titles : gset Py.str;
  key_usage : list (Py.str * list Info.t);
  entry_replacements : gmap Z Py.str
}.

Definition initial_state : State := mkState ∅ [] ∅.

(** [key in key_usage]. *)
Definition key_in (key : Py.str) (usage : list (Py.str * list Info.t)) : bool :=
  bool_decide (key ∈ usage.*1).

(** [key_usage.setdefault(key, []).append(info)]. *)
Fixpoint setdefault_append (key : Py.str) (info : Info.t)
    (usage : list (Py.str * list Info.t)) : list (Py.str * list Info.t) :=
  match usage with
  | [] => [(key, [info])]
  | (k, items) :: usage' =>
      if bool_decide (k = key) then (k, items ++ [info]) :: usage'
      else (k, items) :: setdefault_append key info usage'
  end.

(** What the script does when it stops.  [stdout] and [stderr] hold what
    the script itself prints; what bibtexparser logs on the error stream
    while it parses (a warning for every block it could not parse) is not
    part of [stderr]. *)
Record Outcome := mkOutcome {
  exit_status : Z;
  stdout : Py.str;
  stderr : Py.str;
  written : option (Py.str * Py.str)   (* path and contents of the file written *)
}.

Definition get_field (entry : Entry.t) (key default : Py.str) : Py.str :=
  match Entry.fields_dict entry !! key with
  | Some f => Field.value f
  | None => default
  end.

(** [key in block.fields_dict]. *)
Definition has_field (entry : Entry.t) (key : Py.str) : bool :=
  bool_decide (is_Some (Entry.fields_dict entry !! key)).

(** The regular expression [\s+and\s+] (ignoring case) matches at the start
    of [s]. *)
Definition and_separator_at (s : Py.str) : bool :=
  match s with
  | c :: _ =>
      Py.isspace c &&
      match Py.lstrip s with
      | a :: n :: d :: w :: _ =>
          ((a =? 97) || (a =? 65)) && ((n =? 110) || (n =? 78)) &&
          ((d =? 100) || (d =? 68)) && Py.isspace w
      | _ => false
      end
  | [] => false
  end.

(** [re.split(r'\s+and\s+', author, flags=re.IGNORECASE)[0]]. *)
Fixpoint first_author (author : Py.str) : Py.str :=
  match author with
  | [] => []
  | c :: author' =>
      if and_separator_at author then [] else c :: first_author author'
  end.

Section Script.

Variable str_lower str_upper : Py.str -> Py.str.
Variable spacy_nlp : Py.str -> option (list (Py.str * Py.str)).

(** One step of the loop over [selected]. *)
Definition abbr_part (word : Py.str) : Py.str :=
  if (length word <=? 3)%nat || Py.eqb (str_upper word) word
  then str_upper word
  else str_lower (take 1 word).

Definition important_tokens (doc : list (Py.str * Py.str)) : list Py.str :=
  List.map fst
    (List.filter
       (fun token => bool_decide (snd token ∈ List.map Py.lit ["NOUN"; "ADJ"; "PROPN"]%string))
       doc).

(** Steps 1 and 2: lower case, punctuation to spaces, split, filter. *)
Definition tokenize (title : Py.str) : list Py.str :=
  let clean :=
    List.map (fun c => if Py.contains c Py.punctuation then Py.space else c)
             (str_lower title) in
  let words := Py.split clean in
  List.filter
    (fun w => negb (bool_decide (w ∈ STOP_WORDS)) && (1 <? length w)%nat)
    words.

(** Step 3: the tagger's nouns, adjectives and proper nouns replace the
    content words when there are any; an exception leaves them as they are. *)
Definition refine (use_nlp : bool) (content_words : list Py.str)
    : list Py.str :=
  if use_nlp then
    match spacy_nlp (Py.join [Py.space] content_words) with
    | Some doc =>
        match important_tokens doc with
        | [] => content_words
        | important => important
        end
    | None => content_words
    end
  else content_words.

(** Step 4: [content_words[n-2:n]]. *)
Definition selected (content_words : list Py.str) (n : Z) : list Py.str :=
  Py.slice content_words (n - 2) n.

Definition extract_title_abbreviation (title : Py.str) (use_nlp : bool) (n : Z)
    : Py.str :=
  match title with
  | [] => []
  | _ =>
      match tokenize title with
      | [] => []
      | content_words =>
          take 3
            (concat (List.map abbr_part
                       (selected (refine use_nlp content_words) n)))
      end
  end.

Definition extract_lastname (author : Py.str) : Py.str :=
  match author with
  | [] => Py.lit "unknown"
  | _ =>
      let first := Py.strip (first_author author) in
      let last :=
        if Py.contains Py.comma first then Py.before_char Py.comma first
        else match last (Py.split first) with
             | Some w => w
             | None => Py.lit "unknown"
             end in
      match str_lower (List.filter Py.is_ascii_letter last) with
      | [] => Py.lit "unknown"
      | name => name
      end
  end.

(** *** Pass 1, one entry (the body of the first loop) *)

(** The normalized title of an entry. *)
Definition title_of (block : Entry.t) : Py.str :=
  clean_title_for_key (Py.strip (get_field block (Py.lit "title") [])).

Definition author_of (block : Entry.t) : Py.str :=
  if has_field block (Py.lit "author") then get_field block (Py.lit "author") []
  else if has_field block (Py.lit "AUTHOR") then get_field block (Py.lit "AUTHOR") []
  else Py.lit "unknown".

Definition year_of (block : Entry.t) : Py.str :=
  let year :=
    if has_field block (Py.lit "year")
    then Py.strip (get_field block (Py.lit "year") [])
    else if has_field block (Py.lit "YEAR")
    then Py.strip (get_field block (Py.lit "YEAR") [])
    else Py.lit "0000" in
  if Py.fullmatch_d4 year then year else Py.lit "0000".

Definition base_key (block : Entry.t) : Py.str :=
  extract_lastname (author_of block) ++ year_of block.

(** The loop [while key in key_usage: ...].  [fuel] bounds the number of
    times the loop condition is evaluated; [None] means that the bound was
    reached with the condition still true. *)
Fixpoint escalate (fuel : nat) (usage : list (Py.str * list Info.t))
    (title key : Py.str) (n : Z) : option Py.str :=
  match fuel with
  | O => None
  | S fuel' =>
      if key_in key usage
      then escalate fuel' usage title
             (key ++ extract_title_abbreviation title true n) (2 * n)
      else Some key
  end.

Definition set_last (x : Py.str) (lines : list Py.str) : list Py.str :=
  <[pred (length lines) := x]> lines.

Definition format_entry (block : Entry.t) (key title : Py.str) : Py.str :=
  let other :=
    List.filter (fun f => negb (Py.eqb (Field.key f) (Py.lit "title")))
                (Entry.fields block) in
  let lines :=
    [Py.lit "@" ++ Entry.entry_type block ++ Py.lit "{" ++ key ++
     Py.lit ", title = {" ++ title ++ Py.lit "},"] in
  let lines :=
    lines ++
    List.map (fun f => Py.lit "  " ++ Field.key f ++ Py.lit " = {" ++
                       Field.value f ++ Py.lit "},") other in
  let lines :=
    if (1 <? length lines)%nat
    then match last lines with
         | Some l => set_last (Py.rstrip_char Py.comma l) lines
         | None => lines
         end
    else lines in
  let lines := lines ++ [Py.lit "}"] in
  Py.join [Py.newline] lines.

Definition pass1_entry (fuel : nat) (st : State) (block : Entry.t)
    : option State :=
  let title := title_of block in
  if bool_decide (str_lower title ∈ seen_titles st) then Some st
  else
    let seen := seen_titles st ∪ {[str_lower title]} in
    let info := Info.mk title (Entry.key block) (Entry.start_line block) in
    match escalate fuel (key_usage st) title (base_key block) 2 with
    | None => None
    | Some key =>
        Some (mkState seen
                (setdefault_append key info (key_usage st))
                (<[Entry.start_line block := format_entry block key title]>
                   (entry_replacements st)))
    end.

Definition pass1_block (fuel : nat) (st : State) (block : Block)
    : option State :=
  match block with
  | EntryBlock e => pass1_entry fuel st e
  | _ => Some st
  end.

Fixpoint pass1 (fuel : nat) (blocks : list Block) (st : State)
    : option State :=
  match blocks with
  | [] => Some st
  | block :: blocks' =>
      match pass1_block fuel st block with
      | Some st' => pass1 fuel blocks' st'
      | None => None
      end
  end.

(** *** The conflict report *)

Definition conflict_line (it : Info.t) : Py.str :=
  Py.lit "  Line " ++ Py.str_of_int (Info.line it) ++ Py.lit ": " ++
  Info.title it ++ Py.lit " (orig: " ++ Info.orig_key it ++ Py.lit ")".

Definition report_conflicts (usage : list (Py.str * list Info.t))
    (out : Py.str) : Py.str :=
  fold_left
    (fun out entry =>
       if (1 <? length (snd entry))%nat
       then fold_left (fun out it => Py.print (conflict_line it) out)
              (snd entry)
              (Py.print ([10; 9888; 65039] ++ Py.lit " Key conflict: '" ++
                         fst entry ++ Py.lit "'") out)
       else out)
    usage out.

(** *** Pass 2 *)

(** What one iteration of the second loop writes. *)
Definition emit_block (replacements : gmap Z Py.str) (block : Block) : Py.str :=
  match block with
  | EntryBlock e =>
      match replacements !! Entry.start_line e with
      | Some text => text ++ [Py.newline]
      | None => []
      end
  | _ =>
      match block_raw block with
      | Some raw =>
          raw ++ (if Py.endswith raw [Py.newline] then [] else [Py.newline])
      | None => Py.lit "% [block preserved]" ++ [Py.newline]
      end
  end.

Definition pass2 (replacements : gmap Z Py.str) (blocks : list Block)
    : Py.str :=
  fold_left (fun out block => out ++ emit_block replacements block) blocks [].

(** *** The script *)

Definition duplicate_blocks (blocks : list Block) : list (Py.str * Z) :=
  omap (fun block =>
          match block with
          | DuplicateBlockKeyBlock key line _ => Some (key, line)
          | _ => None
          end) blocks.

Definition duplicate_line (dup : Py.str * Z) : Py.str :=
  Py.lit "   - Key '" ++ fst dup ++ Py.lit "' is duplicated at line " ++
  Py.str_of_int (snd dup + 1).

Definition duplicate_report (dups : list (Py.str * Z)) : Py.str :=
  Py.print
    ([Py.newline] ++ Py.lit "Please ensure all entry keys are unique before running this script. Please modify these lines first!!")
    (fold_left (fun out dup => Py.print (duplicate_line dup) out) dups
       (Py.print ([10060] ++ Py.lit " Error: Duplicate BibTeX keys found in input file!") [])).

(** [parse_file] stands for a call of [bibtexparser.parse_file] that
    returns, on the file system of the run (a file that cannot be read makes
    the call raise: such a run is not covered); [None] is a run that does
    not leave the escalation loop within [fuel] iterations. *)
Definition main (fuel : nat) (argv : list Py.str)
    (parse_file : Py.str -> list Block) : option Outcome :=
  match argv with
  | [_; input_file] =>
      let output_file := input_file ++ Py.lit ".reformatted" in
      let blocks := parse_file input_file in
      match duplicate_blocks blocks with
      | (_ :: _) as dups => Some (mkOutcome 1 [] (duplicate_report dups) None)
      | [] =>
          match pass1 fuel blocks initial_state with
          | None => None
          | Some st =>
              let out := report_conflicts (key_usage st) [] in
              let file := pass2 (entry_replacements st) blocks in
              let out :=
                Py.print ([10; 9989] ++ Py.lit " Output written to " ++
                          output_file) out in
              let out :=
                Py.print (Py.lit "   Kept " ++
                          Py.str_of_int (Z.of_nat (size (entry_replacements st))) ++
                          Py.lit " unique entries.") out in
              Some (mkOutcome 0 out [] (Some (output_file, file)))
          end
      end
  | _ => Some (mkOutcome 1 (Py.print (Py.lit "Usage: python script.py input.bib") []) [] None)
  end.

(** ** Auxiliary predicates used in the statements and proofs *)

(** [s] is empty or starts with a character that is not white space. *)
Definition starts_nonws (s : Py.str) : Prop :=
  match s with
  | [] => True
  | c :: _ => Py.isspace c = false
  end.

(** Every white space character of [s] is a single space that is not
    followed by white space: the shape [re.sub(r'\s+', ' ', _)] produces. *)
Fixpoint collapsed (s : Py.str) : Prop :=
  match s with
  | [] => True
  | c :: s' =>
      (Py.isspace c = true -> c = Py.space /\ starts_nonws s') /\ collapsed s'
  end.

(** *** The shape of a replacement text *)

Definition other_fields (block : Entry.t) : list Field.t :=
  List.filter (fun f => negb (Py.eqb (Field.key f) (Py.lit "title")))
              (Entry.fields block).

(** The opening line and a field line, both without a trailing comma. *)
Definition opening_line (block : Entry.t) (key title : Py.str) : Py.str :=
  Py.lit "@" ++ Entry.entry_type block ++ Py.lit "{" ++ key ++
  Py.lit ", title = {" ++ title ++ Py.lit "}".

Definition field_line (f : Field.t) : Py.str :=
  Py.lit "  " ++ Field.key f ++ Py.lit " = {" ++ Field.value f ++ Py.lit "}".

(** The lines of the fields other than the title: a comma after each but
    the last. *)
Fixpoint field_lines (other : list Field.t) : list Py.str :=
  match other with
  | [] => []
  | [f] => [field_line f]
  | f :: other' => (field_line f ++ [Py.comma]) :: field_lines other'
  end.

(** The replacement text as the specification words it: the comma is
    removed from the last field line, which is the opening line when the
    title is the only field. *)
Definition format_entry_as_specified (block : Entry.t) (key title : Py.str)
    : Py.str :=
  Py.join [Py.newline]
    (match other_fields block with
     | [] => [opening_line block key title]
     | other => (opening_line block key title ++ [Py.comma]) :: field_lines other
     end ++ [Py.lit "}"]).

(** *** The year token *)

(** The value of the last field of the list with exactly this name. *)
Definition last_value (name : Py.str) (fields : list Field.t)
    : option Py.str :=
  Field.value <$>
    last (List.filter (fun f => Py.eqb (Field.key f) name) fields).

(** The field the year is read from: the one named [year], and when there
    is none the one named [YEAR]. *)
Definition year_field (block : Entry.t) : option Py.str :=
  match last_value (Py.lit "year") (Entry.fields block) with
  | Some v => Some v
  | None => last_value (Py.lit "YEAR") (Entry.fields block)
  end.

Definition four_ascii_digits (s : Py.str) : bool :=
  (length s =? 4)%nat && forallb Py.is_ascii_digit s.

(** The year token as the specification words it: the year field is found
    whatever the case of its name, and its value is used when it is exactly
    four ASCII digits. *)
Definition year_as_specified (block : Entry.t) : Py.str :=
  match
    List.find (fun f => Py.eqb (Py.ascii_lower (Field.key f)) (Py.lit "year"))
              (Entry.fields block)
  with
  | Some f =>
      if four_ascii_digits (Field.value f) then Field.value f
      else Py.lit "0000"
  | None => Py.lit "0000"
  end.

(** *** The escalation loop *)

(** The value of [n] at the escalation step number [j] (from 0): the loop
    starts at 2 and doubles. *)
Definition escalation_n (j : nat) : Z := 2 ^ (Z.of_nat j + 1).

(** The key after [j] escalation steps. *)
Fixpoint candidate (title key : Py.str) (j : nat) : Py.str :=
  match j with
  | O => key
  | S j' =>
      candidate title key j' ++
      extract_title_abbreviation title true (escalation_n j')
  end.

(** The window of step [j] as the specification words it: two tokens at a
    time, each window next to the one before. *)
Definition window_as_specified (content_words : list Py.str) (j : nat)
    : list Py.str :=
  take 2 (drop (2 * j) content_words).

(** *** Pass 1 *)

(** The lower-cased normalized title: what [seen_titles] holds. *)
Definition ltitle (block : Entry.t) : Py.str := str_lower (title_of block).

(** The provenance record Pass 1 appends for an entry. *)
Definition info_of (block : Entry.t) : Info.t :=
  Info.mk (title_of block) (Entry.key block) (Entry.start_line block).

(** The source lines of the entries of a block sequence. *)
Definition entry_lines (blocks : list Block) : list Z :=
  Entry.start_line <$> entries blocks.

(** The entries kept after the titles in [seen]: of the entries with the
    same lower-cased normalized title, the first one. *)
Fixpoint kept_entries (seen : gset Py.str) (es : list Entry.t)
    : list Entry.t :=
  match es with
  | [] => []
  | e :: es' =>
      if bool_decide (ltitle e ∈ seen) then kept_entries seen es'
      else e :: kept_entries (seen ∪ {[ltitle e]}) es'
  end.

(** *** Characters of a title *)

(** The characters of [s] that are not white space, in order. *)
Definition visible (s : Py.str) : Py.str :=
  List.filter (fun c => negb (Py.isspace c)) s.

(** White space or one of the two braces. *)
Definition blank_char (c : N) : bool :=
  Py.isspace c || (c =? Py.lbrace) || (c =? Py.rbrace).


(** *** Surname and year tokens *)

(** [str.lower] on ASCII letters is the ASCII mapping, as in Python. *)
Definition lower_is_ascii_on_letters : Prop :=
  forall s, Forall (fun c => Py.is_ascii_letter c = true) s ->
            str_lower s = Py.ascii_lower s.

(** A letter from [a] to [z]. *)
Definition is_lower_letter (c : N) : bool := (97 <=? c) && (c <=? 122).


(** The index after two entries took the keys [smith2020] and
    [smith2020ab]. *)
Definition usage_two_taken : list (Py.str * list Info.t) :=
  [(Py.lit "smith2020", [Info.mk (Py.lit "Deep Learning for X") (Py.lit "k1") 1]);
   (Py.lit "smith2020ab", [Info.mk (Py.lit "Alpha Bravo Charlie") (Py.lit "w2") 5])].

(** * Properties *)

(** ** Strings *)

Lemma remove_char_absent c s : c ∉ Py.remove_char c s.
Proof.
  unfold Py.remove_char. rewrite list_elem_of_In, filter_In.
  intros [_ H]. rewrite N.eqb_refl in H. discriminate.
Qed.

Lemma remove_char_subset c d s : d ∈ Py.remove_char c s -> d ∈ s.
Proof.
  unfold Py.remove_char. rewrite !list_elem_of_In, filter_In. tauto.
Qed.

Lemma remove_char_id c s : c ∉ s -> Py.remove_char c s = s.
Proof.
  unfold Py.remove_char. induction s as [|d s IH]; intros Hc; [done|].
  apply not_elem_of_cons in Hc as [Hd Hs]. simpl.
  destruct (N.eqb_spec d c) as [->|_]; [done|]. simpl. by rewrite IH.
Qed.

Lemma lstrip_subset d s : d ∈ Py.lstrip s -> d ∈ s.
Proof.
  induction s as [|c s IH]; simpl; [done|].
  destruct (Py.isspace c); [|done]. intros H. right. auto.
Qed.

Lemma rstrip_subset d s : d ∈ Py.rstrip s -> d ∈ s.
Proof.
  induction s as [|c s IH]; simpl; [done|].
  destruct (Py.rstrip s) as [|r rs].
  - destruct (Py.isspace c); [by intros ?%elem_of_nil|].
    intros ->%list_elem_of_singleton. left.
  - intros [->|H]%elem_of_cons; [left|right; auto].
Qed.

Lemma sub_ws_from_subset b d s :
  d ∈ Py.sub_ws_from b s -> d = Py.space \/ d ∈ s.
Proof.
  revert b. induction s as [|c s IH]; intros b; simpl; [by intros ?%elem_of_nil|].
  destruct (Py.isspace c).
  - destruct b.
    + intros [?|?]%IH; [by left|right; by right].
    + intros [->|[?|?]%IH]%elem_of_cons; [by left|by left|right; by right].
  - intros [->|[?|?]%IH]%elem_of_cons; [right; left|by left|right; by right].
Qed.

Lemma lstrip_starts_nonws s : starts_nonws (Py.lstrip s).
Proof.
  induction s as [|c s IH]; simpl; [done|].
  destruct (Py.isspace c) eqn:E; [done|]. exact E.
Qed.

Lemma lstrip_id s : starts_nonws s -> Py.lstrip s = s.
Proof. destruct s as [|c s]; simpl; [done|]. by intros ->. Qed.

Lemma rstrip_starts_nonws s : starts_nonws s -> starts_nonws (Py.rstrip s).
Proof.
  destruct s as [|c s]; simpl; [done|]. intros E.
  destruct (Py.rstrip s); [by rewrite E|done].
Qed.

Lemma rstrip_idemp s : Py.rstrip (Py.rstrip s) = Py.rstrip s.
Proof.
  induction s as [|c s IH]; simpl; [done|].
  destruct (Py.rstrip s) as [|r rs] eqn:E.
  - destruct (Py.isspace c) eqn:Ec; simpl; [done|]. by rewrite Ec.
  - change (Py.rstrip (c :: r :: rs)) with
      (match Py.rstrip (r :: rs) with
       | [] => if Py.isspace c then [] else [c]
       | x => c :: x
       end).
    by rewrite IH.
Qed.

Lemma strip_idemp s : Py.strip (Py.strip s) = Py.strip s.
Proof.
  unfold Py.strip.
  rewrite (lstrip_id (Py.rstrip (Py.lstrip s)))
    by apply rstrip_starts_nonws, lstrip_starts_nonws.
  apply rstrip_idemp.
Qed.

Lemma collapsed_lstrip s : collapsed s -> collapsed (Py.lstrip s).
Proof.
  induction s as [|c s IH]; simpl; [done|]. intros [Hc Hs].
  destruct (Py.isspace c) eqn:E; [auto|]. simpl.
  split; [rewrite E; discriminate|exact Hs].
Qed.

Lemma collapsed_rstrip s : collapsed s -> collapsed (Py.rstrip s).
Proof.
  induction s as [|c s IH]; simpl; [done|]. intros [Hc Hs].
  specialize (IH Hs).
  destruct (Py.rstrip s) as [|r rs] eqn:E.
  - destruct (Py.isspace c) eqn:Ec; simpl; [done|]. rewrite Ec. by split.
  - split; [|done]. intros Hsp. destruct (Hc Hsp) as [-> Hn]. split; [done|].
    apply rstrip_starts_nonws in Hn. by rewrite E in Hn.
Qed.

Lemma sub_ws_from_starts_nonws s : starts_nonws (Py.sub_ws_from true s).
Proof.
  induction s as [|c s IH]; simpl; [done|].
  destruct (Py.isspace c) eqn:E; [done|]. exact E.
Qed.

Lemma sub_ws_from_collapsed b s : collapsed (Py.sub_ws_from b s).
Proof.
  revert b. induction s as [|c s IH]; intros b; simpl; [done|].
  destruct (Py.isspace c) eqn:E.
  - destruct b; [apply IH|]. simpl. split; [|apply IH].
    intros _. split; [done|apply sub_ws_from_starts_nonws].
  - simpl. split; [|apply IH]. rewrite E. discriminate.
Qed.

Lemma sub_ws_from_id b s :
  collapsed s -> (b = true -> starts_nonws s) -> Py.sub_ws_from b s = s.
Proof.
  revert b. induction s as [|c s IH]; intros b; simpl; [done|].
  intros [Hc Hs] Hb. destruct (Py.isspace c) eqn:E.
  - destruct b; [specialize (Hb eq_refl); congruence|].
    destruct (Hc eq_refl) as [-> Hn]. f_equal. by apply IH.
  - f_equal. apply IH; [done|discriminate].
Qed.

(** ** Title normalizer *)

Lemma clean_title_for_key_unfold x :
  clean_title_for_key x =
  Py.strip (Py.sub_ws (Py.remove_char Py.rbrace (Py.remove_char Py.lbrace x))).
Proof. by destruct x. Qed.

Lemma clean_title_for_key_chars d x :
  d ∈ clean_title_for_key x ->
  d ≠ Py.lbrace /\ d ≠ Py.rbrace /\ (d = Py.space \/ d ∈ x).
Proof.
  rewrite clean_title_for_key_unfold. unfold Py.strip, Py.sub_ws.
  intros [Hsp|Hd]%rstrip_subset%lstrip_subset%sub_ws_from_subset.
  - subst d. repeat split; [done|done|by left].
  - repeat split.
    + intros ->. apply remove_char_subset in Hd.
      by apply remove_char_absent in Hd.
    + intros ->. by apply remove_char_absent in Hd.
    + right. by apply remove_char_subset, remove_char_subset in Hd.
Qed.

Lemma clean_title_for_key_collapsed x : collapsed (clean_title_for_key x).
Proof.
  rewrite clean_title_for_key_unfold.
  apply collapsed_rstrip, collapsed_lstrip, sub_ws_from_collapsed.
Qed.

(** C8.  For every string [x], [clean_title_for_key x] contains neither
    brace, and normalizing a second time changes nothing. *)
Theorem clean_title_for_key_braces_idempotent (x : Py.str) :
  (Py.lbrace ∉ clean_title_for_key x) /\
  (Py.rbrace ∉ clean_title_for_key x) /\
  clean_title_for_key (clean_title_for_key x) = clean_title_for_key x.
Proof.
  split; [|split].
  - intros H%clean_title_for_key_chars. by destruct H as [? _].
  - intros H%clean_title_for_key_chars. by destruct H as (_ & ? & _).
  - set (y := clean_title_for_key x).
    assert (Hl : Py.lbrace ∉ y)
      by (intros H%clean_title_for_key_chars; by destruct H as [? _]).
    assert (Hr : Py.rbrace ∉ y)
      by (intros H%clean_title_for_key_chars; by destruct H as (_ & ? & _)).
    rewrite (clean_title_for_key_unfold y).
    rewrite (remove_char_id _ _ Hl), (remove_char_id _ _ Hr).
    unfold Py.sub_ws. rewrite sub_ws_from_id;
      [|apply clean_title_for_key_collapsed|discriminate].
    unfold y. rewrite clean_title_for_key_unfold. apply strip_idemp.
Qed.

(** ** Pass 2 *)

Lemma pass2_fold replacements blocks out :
  fold_left (fun out block => out ++ emit_block replacements block) blocks out =
  out ++ concat (List.map (emit_block replacements) blocks).
Proof.
  revert out. induction blocks as [|b blocks IH]; intros out; simpl.
  - by rewrite app_nil_r.
  - by rewrite IH, app_assoc.
Qed.

Lemma pass2_concat replacements blocks :
  pass2 replacements blocks = concat (List.map (emit_block replacements) blocks).
Proof. unfold pass2. by rewrite pass2_fold. Qed.

Lemma pass2_app replacements blocks1 blocks2 :
  pass2 replacements (blocks1 ++ blocks2) =
  pass2 replacements blocks1 ++ pass2 replacements blocks2.
Proof. by rewrite !pass2_concat, map_app, concat_app. Qed.

Lemma emit_block_other replacements block raw :
  is_entry block = false -> block_raw block = Some raw ->
  emit_block replacements block =
  raw ++ (if Py.endswith raw [Py.newline] then [] else [Py.newline]).
Proof. destruct block; simpl; [done| |]; by intros _ ->. Qed.

(** C9.  A block that is not an entry is written with its raw text, at its
    own place between what the blocks before it and the blocks after it
    produce, followed by a line break only when the raw text does not end
    with one. *)
Theorem pass2_preserves_other_blocks
    (replacements : gmap Z Py.str) (before after : list Block)
    (block : Block) (raw : Py.str) :
  is_entry block = false ->
  block_raw block = Some raw ->
  pass2 replacements (before ++ block :: after) =
    pass2 replacements before ++
    raw ++ (if Py.endswith raw [Py.newline] then [] else [Py.newline]) ++
    pass2 replacements after.
Proof.
  intros Hentry Hraw.
  change (block :: after) with ([block] ++ after).
  rewrite !pass2_app, (app_assoc raw). f_equal.
  rewrite (pass2_concat _ [block]). cbn [List.map concat]. rewrite app_nil_r.
  f_equal. by apply emit_block_other.
Qed.

(** ** Duplicate keys in the input *)

Lemma duplicate_report_eq dups :
  duplicate_report dups =
  [10060] ++ Py.lit " Error: Duplicate BibTeX keys found in input file!" ++
  [Py.newline] ++
  concat (List.map (fun dup => duplicate_line dup ++ [Py.newline]) dups) ++
  [Py.newline] ++
  Py.lit "Please ensure all entry keys are unique before running this script. Please modify these lines first!!" ++
  [Py.newline].
Proof.
  unfold duplicate_report.
  set (head := Py.print _ []).
  assert (Hfold : forall out,
    fold_left (fun out dup => Py.print (duplicate_line dup) out) dups out =
    out ++ concat (List.map (fun dup => duplicate_line dup ++ [Py.newline]) dups)).
  { induction dups as [|d dups IH]; intros out; cbn [fold_left List.map concat].
    - by rewrite app_nil_r.
    - rewrite IH. unfold Py.print. by rewrite <- !app_assoc. }
  rewrite Hfold. unfold head, Py.print. rewrite app_nil_l.
  by rewrite <- !app_assoc.
Qed.

Lemma duplicate_blocks_elem key line blocks :
  (key, line) ∈ duplicate_blocks blocks <->
  exists raw, DuplicateBlockKeyBlock key line raw ∈ blocks.
Proof.
  unfold duplicate_blocks. rewrite list_elem_of_omap. split.
  - intros (b & Hb & Heq). destruct b; simplify_eq. eauto.
  - intros (raw & Hb). eexists. split; [exact Hb|done].
Qed.

(** C6.  When the parsed blocks contain a [DuplicateBlockKeyBlock], the
    script stops with status 1 whatever the bound on the escalation loop,
    prints one line per duplicate block with its key and its line plus one
    between the two fixed messages, and writes no file. *)
Theorem duplicate_keys_abort
    (fuel : nat) (script input_file : Py.str)
    (parse_file : Py.str -> list Block)
    (key : Py.str) (line : Z) (raw : option Py.str) :
  DuplicateBlockKeyBlock key line raw ∈ parse_file input_file ->
  let dups := duplicate_blocks (parse_file input_file) in
  (key, line) ∈ dups /\
  main fuel [script; input_file] parse_file =
    Some (mkOutcome 1 []
      ([10060] ++ Py.lit " Error: Duplicate BibTeX keys found in input file!" ++
       [Py.newline] ++
       concat (List.map
                 (fun dup => Py.lit "   - Key '" ++ fst dup ++
                             Py.lit "' is duplicated at line " ++
                             Py.str_of_int (snd dup + 1) ++ [Py.newline])
                 dups) ++
       [Py.newline] ++
       Py.lit "Please ensure all entry keys are unique before running this script. Please modify these lines first!!" ++
       [Py.newline])
      None).
Proof.
  intros Hin dups.
  assert (Hdup : (key, line) ∈ dups) by (apply duplicate_blocks_elem; eauto).
  split; [done|].
  unfold main. fold dups.
  destruct dups as [|d dups'] eqn:E; [by apply elem_of_nil in Hdup|].
  rewrite duplicate_report_eq. do 2 f_equal.
  do 3 f_equal. f_equal. f_equal.
  apply map_ext. intros dup. unfold duplicate_line. by rewrite <- !app_assoc.
Qed.

(** ** The replacement text *)

Lemma rstrip_char_app c s t :
  Py.rstrip_char c t ≠ [] -> Py.rstrip_char c (s ++ t) = s ++ Py.rstrip_char c t.
Proof.
  intros Ht. induction s as [|d s IH]; [done|].
  cbn [app Py.rstrip_char]. rewrite IH.
  destruct (s ++ Py.rstrip_char c t) eqn:E; [|done].
  by apply app_eq_nil in E as [_ ?].
Qed.

Lemma rstrip_comma_field_line f :
  Py.rstrip_char Py.comma
    (Py.lit "  " ++ Field.key f ++ Py.lit " = {" ++ Field.value f ++ Py.lit "},")
  = field_line f.
Proof.
  unfold field_line.
  rewrite !(app_assoc _ _ (Py.lit "},")), !(app_assoc _ _ (Py.lit "}")).
  by rewrite rstrip_char_app.
Qed.

Lemma set_last_cons x l ls :
  ls ≠ [] -> set_last x (l :: ls) = l :: set_last x ls.
Proof. intros H. destruct ls; [done|reflexivity]. Qed.

Lemma last_comma_removed (other : list Field.t) :
  other ≠ [] ->
  let lines :=
    List.map (fun f => Py.lit "  " ++ Field.key f ++ Py.lit " = {" ++
                       Field.value f ++ Py.lit "},") other in
  match last lines with
  | Some l => set_last (Py.rstrip_char Py.comma l) lines
  | None => lines
  end = field_lines other.
Proof.
  induction other as [|f other IH]; [done|]. intros _.
  destruct other as [|g other].
  - cbn. by rewrite rstrip_comma_field_line.
  - specialize (IH ltac:(done)). cbn zeta in IH |- *.
    cbn [List.map] in IH |- *. rewrite last_cons_cons.
    destruct (last _) as [l|] eqn:E; [|by apply last_None in E].
    rewrite set_last_cons by done. rewrite IH.
    cbn [field_lines]. f_equal. unfold field_line.
    by rewrite <- !app_assoc.
Qed.

Lemma format_entry_lines block key title :
  format_entry block key title =
  Py.join [Py.newline]
    ((opening_line block key title ++ [Py.comma]) ::
     field_lines (other_fields block) ++ [Py.lit "}"]).
Proof.
  unfold format_entry. fold (other_fields block).
  assert (Hopen :
    Py.lit "@" ++ Entry.entry_type block ++ Py.lit "{" ++ key ++
    Py.lit ", title = {" ++ title ++ Py.lit "}," =
    opening_line block key title ++ [Py.comma]).
  { unfold opening_line. by rewrite <- !app_assoc. }
  rewrite Hopen. clear Hopen.
  destruct (other_fields block) as [|f other] eqn:E; [done|].
  pose proof (last_comma_removed (f :: other) ltac:(done)) as H.
  cbn zeta in H.
  set (lines := List.map _ (f :: other)) in *.
  assert (Hlen : (1 <? length ([opening_line block key title ++ [Py.comma]] ++ lines))%nat = true).
  { subst lines. cbn. reflexivity. }
  rewrite Hlen. clear Hlen.
  assert (Hne : lines ≠ []) by (subst lines; discriminate).
  change ([?x] ++ lines) with (x :: lines).
  destruct lines as [|l0 lines'] eqn:El; [done|].
  rewrite last_cons_cons.
  destruct (last (l0 :: lines')) as [l|] eqn:Elast.
  - rewrite set_last_cons by done. by rewrite H.
  - by apply last_None in Elast.
Qed.

(** C7 (amended).  The replacement text is the opening line with entry
    type, derived key and title, one indented line per other field in the
    original order and a closing brace line; every line but the closing one
    ends with a comma, except the last of the other fields' lines.  With the
    title as the only field the opening line keeps its comma. *)
Theorem format_entry_shape (block : Entry.t) (key title : Py.str) :
  format_entry block key title =
    Py.join [Py.newline]
      ((Py.lit "@" ++ Entry.entry_type block ++ Py.lit "{" ++ key ++
        Py.lit ", title = {" ++ title ++ Py.lit "}" ++ [Py.comma]) ::
       field_lines (other_fields block) ++ [Py.lit "}"]) /\
  (other_fields block = [] ->
   format_entry block key title =
     opening_line block key title ++ [Py.comma] ++ [Py.newline] ++ Py.lit "}").
Proof.
  split.
  - rewrite format_entry_lines. unfold opening_line.
    by rewrite <- !app_assoc.
  - intros E. rewrite format_entry_lines, E.
    cbn [field_lines app Py.join]. by rewrite <- !app_assoc.
Qed.

(** ** The year token *)

Lemma fields_dict_lookup block name :
  Entry.fields_dict block !! name =
  last (List.filter (fun f => Py.eqb (Field.key f) name) (Entry.fields block)).
Proof.
  unfold Entry.fields_dict.
  induction (Entry.fields block) as [|f fields IH] using rev_ind; [done|].
  rewrite map_app, reverse_app, List.filter_app. cbn [List.map reverse app].
  rewrite reverse_singleton. cbn [app list_to_map foldr]. cbn [List.filter].
  unfold Py.eqb at 2. case_bool_decide as Hk.
  - rewrite last_snoc. cbn [fst snd]. rewrite <- Hk. apply lookup_insert_eq.
  - rewrite app_nil_r. cbn [fst snd]. by rewrite lookup_insert_ne.
Qed.

Lemma get_field_last_value block name dflt :
  get_field block name dflt =
  default dflt (last_value name (Entry.fields block)).
Proof.
  unfold get_field, last_value. rewrite fields_dict_lookup.
  by destruct (last _).
Qed.

Lemma has_field_last_value block name :
  has_field block name =
  bool_decide (is_Some (last_value name (Entry.fields block))).
Proof.
  unfold has_field, last_value. rewrite fields_dict_lookup.
  by destruct (last _).
Qed.

Lemma ascii_digit_decimal_nonspace c :
  Py.is_ascii_digit c = true ->
  Py.isdecimal c = true /\ Py.isspace c = false.
Proof.
  unfold Py.is_ascii_digit. intros [H1 H2]%andb_true_iff.
  apply N.leb_le in H1, H2.
  assert (c = 48 \/ c = 49 \/ c = 50 \/ c = 51 \/ c = 52 \/ c = 53 \/
          c = 54 \/ c = 55 \/ c = 56 \/ c = 57) as Hc by lia.
  repeat (destruct Hc as [Hc|Hc]; [subst c; by vm_compute|]).
  subst c. by vm_compute.
Qed.

Lemma rstrip_id_nonspace s :
  Forall (fun c => Py.isspace c = false) s -> Py.rstrip s = s.
Proof.
  induction 1 as [|c s Hc _ IH]; [done|]. cbn [Py.rstrip]. rewrite IH, Hc.
  by destruct s.
Qed.

Lemma strip_id_nonspace s :
  Forall (fun c => Py.isspace c = false) s -> Py.strip s = s.
Proof.
  intros H. unfold Py.strip. rewrite lstrip_id.
  - by apply rstrip_id_nonspace.
  - destruct H; [done|]. by cbn.
Qed.

Lemma four_ascii_digits_fullmatch v :
  four_ascii_digits v = true ->
  Py.strip v = v /\ Py.fullmatch_d4 v = true.
Proof.
  unfold four_ascii_digits, Py.fullmatch_d4.
  intros [Hlen Hall]%andb_true_iff. rewrite Hlen. cbn [andb].
  rewrite forallb_forall in Hall. split.
  - apply strip_id_nonspace, Forall_forall. intros c Hc.
    apply list_elem_of_In in Hc. by apply ascii_digit_decimal_nonspace, Hall.
  - apply forallb_forall. intros c Hc.
    by apply ascii_digit_decimal_nonspace, Hall.
Qed.

Lemma year_of_year_field block :
  year_of block =
  match year_field block with
  | Some v => if Py.fullmatch_d4 (Py.strip v) then Py.strip v else Py.lit "0000"
  | None => Py.lit "0000"
  end.
Proof.
  unfold year_of, year_field.
  rewrite !has_field_last_value, !get_field_last_value.
  destruct (last_value (Py.lit "year") _) as [v|]; cbn; [done|].
  destruct (last_value (Py.lit "YEAR") _) as [v|]; cbn; done.
Qed.

(** C5 (amended).  The year token is the value, stripped of surrounding
    white space, of the field named exactly [year] (when there is none, of
    the field named exactly [YEAR]) when what is left is exactly four
    decimal digits in the sense of the regular expression [\d]; otherwise
    it is [0000].  A value of exactly four ASCII digits is used as it is,
    and an entry with neither field gets [0000]. *)
Theorem year_of_exact_names (block : Entry.t) :
  year_of block =
    match year_field block with
    | Some v =>
        if (length (Py.strip v) =? 4)%nat && forallb Py.isdecimal (Py.strip v)
        then Py.strip v else Py.lit "0000"
    | None => Py.lit "0000"
    end /\
  (forall v, year_field block = Some v -> four_ascii_digits v = true ->
             year_of block = v) /\
  (year_field block = None -> year_of block = Py.lit "0000").
Proof.
  split; [apply year_of_year_field|]. split.
  - intros v Hv [Hs Hm]%four_ascii_digits_fullmatch.
    by rewrite year_of_year_field, Hv, Hs, Hm.
  - intros Hv. by rewrite year_of_year_field, Hv.
Qed.

(** ** The abbreviation window *)

Lemma slice_nonneg {A} (l : list A) (lo hi : Z) :
  (0 <= lo <= hi)%Z ->
  Py.slice l lo hi = take (Z.to_nat (hi - lo)) (drop (Z.to_nat lo) l).
Proof.
  intros H. unfold Py.slice, Py.slice_index.
  destruct (Z.ltb_spec lo 0); [lia|]. destruct (Z.ltb_spec hi 0); [lia|].
  destruct (Z.le_gt_cases hi (Z.of_nat (length l))).
  - rewrite !Z.min_l by lia. done.
  - rewrite (Z.min_r hi) by lia.
    destruct (Z.le_gt_cases lo (Z.of_nat (length l))).
    + rewrite Z.min_l by lia.
      rewrite !take_ge; [done| |]; rewrite length_drop; lia.
    + rewrite Z.min_r by lia.
      rewrite !drop_ge by lia. by rewrite !take_nil.
Qed.

Lemma slice_window_length {A} (l : list A) (n : Z) :
  (length (Py.slice l (n - 2) n) <= 2)%nat.
Proof.
  unfold Py.slice, Py.slice_index. rewrite length_take.
  destruct (Z.ltb_spec (n - 2) 0), (Z.ltb_spec n 0); lia.
Qed.

Lemma escalation_n_succ j : escalation_n (S j) = (2 * escalation_n j)%Z.
Proof.
  unfold escalation_n. rewrite Nat2Z.inj_succ.
  rewrite <- Z.pow_succ_r by lia. f_equal; lia.
Qed.

Lemma escalation_n_ge j : (2 <= escalation_n j)%Z.
Proof.
  induction j as [|j IH]; [done|]. rewrite escalation_n_succ. lia.
Qed.

Lemma escalation_n_mono i j :
  (i < j)%nat -> (escalation_n i <= escalation_n j - 2)%Z.
Proof.
  induction 1 as [|j _ IH].
  - rewrite escalation_n_succ. pose proof (escalation_n_ge i). lia.
  - rewrite escalation_n_succ. pose proof (escalation_n_ge j). lia.
Qed.

(** The loop, after [j] steps whose candidates were all taken, is at the
    candidate number [j] with [n = escalation_n j]. *)
Lemma escalate_steps usage title key j fuel :
  (forall i, (i < j)%nat -> key_in (candidate title key i) usage = true) ->
  escalate (j + fuel) usage title key 2 =
  escalate fuel usage title (candidate title key j) (escalation_n j).
Proof.
  revert fuel. induction j as [|j IH]; intros fuel Htaken; [done|].
  replace (S j + fuel)%nat with (j + S fuel)%nat by lia.
  rewrite IH by (intros i Hi; apply Htaken; lia).
  cbn [escalate]. rewrite Htaken by lia.
  by rewrite <- escalation_n_succ.
Qed.

(** C4 (amended).  The abbreviation is built from the window
    [content_words[n-2:n]] of the (possibly refined) content words, at most
    two tokens.  Escalation step [j] runs with [n = 2^(j+1)], that is 2, 4, 8,
    ..., and so selects the two tokens from index [2^(j+1) - 2]: the windows
    of different steps do not overlap and move to the right, but they are
    next to each other only for the first two steps. *)
Theorem selected_window_walk (content_words : list Py.str) :
  (forall title use_nlp n,
     title ≠ [] -> tokenize title = content_words -> content_words ≠ [] ->
     extract_title_abbreviation title use_nlp n =
     take 3 (concat (List.map abbr_part
                       (selected (refine use_nlp content_words) n)))) /\
  (forall n, selected content_words n = Py.slice content_words (n - 2) n /\
             (length (selected content_words n) <= 2)%nat) /\
  (forall j, selected content_words (escalation_n j) =
             take 2 (drop (Z.to_nat (escalation_n j) - 2) content_words)) /\
  (forall i j, (i < j)%nat -> (escalation_n i <= escalation_n j - 2)%Z) /\
  (escalation_n 0 = 2 /\ escalation_n 1 = 4 /\ escalation_n 2 = 8)%Z /\
  (forall usage title key j fuel,
     (forall i, (i < j)%nat -> key_in (candidate title key i) usage = true) ->
     escalate (j + fuel) usage title key 2 =
     escalate fuel usage title (candidate title key j) (escalation_n j)).
Proof.
  split; [|split; [|split; [|split; [|split]]]].
  - intros title use_nlp n Htitle <- Hwords. unfold extract_title_abbreviation.
    destruct title; [done|]. by destruct (tokenize _).
  - intros n. split; [done|]. apply slice_window_length.
  - intros j. unfold selected. pose proof (escalation_n_ge j).
    rewrite slice_nonneg by lia. f_equal; [lia|]. f_equal. lia.
  - apply escalation_n_mono.
  - done.
  - apply escalate_steps.
Qed.

(** ** Pass 1 *)

Lemma escalate_fresh fuel usage title key n key' :
  escalate fuel usage title key n = Some key' -> key_in key' usage = false.
Proof.
  revert key n. induction fuel as [|fuel IH]; intros key n; [done|].
  cbn [escalate]. destruct (key_in key usage) eqn:E; [apply IH|].
  by intros [= <-].
Qed.

Lemma escalate_fuel_mono fuel fuel' usage title key n key' :
  escalate fuel usage title key n = Some key' -> (fuel <= fuel')%nat ->
  escalate fuel' usage title key n = Some key'.
Proof.
  revert fuel' key n. induction fuel as [|fuel IH]; intros fuel' key n; [done|].
  intros H Hle. destruct fuel' as [|fuel']; [lia|].
  cbn [escalate] in H |- *. destruct (key_in key usage); [|done].
  apply IH; [done|lia].
Qed.

(** Without an abbreviation to append, a taken key stays taken. *)
Lemma escalate_stuck fuel usage title key n :
  key_in key usage = true ->
  (forall m, extract_title_abbreviation title true m = []) ->
  escalate fuel usage title key n = None.
Proof.
  intros Hin Habbr. revert n. induction fuel as [|fuel IH]; intros n; [done|].
  cbn [escalate]. by rewrite Hin, Habbr, app_nil_r.
Qed.

Lemma setdefault_append_fresh key info usage :
  key_in key usage = false ->
  setdefault_append key info usage = usage ++ [(key, [info])].
Proof.
  unfold key_in. intros Hin%bool_decide_eq_false.
  induction usage as [|[k items] usage IH]; [done|].
  cbn [setdefault_append]. cbn in Hin. apply not_elem_of_cons in Hin as [Hk Hin].
  rewrite bool_decide_eq_false_2 by done. cbn. by rewrite IH.
Qed.

Lemma pass1_entry_skip fuel st block :
  ltitle block ∈ seen_titles st -> pass1_entry fuel st block = Some st.
Proof.
  intros H. unfold pass1_entry. fold (ltitle block).
  by rewrite bool_decide_eq_true_2.
Qed.

Lemma pass1_entry_keep fuel st block st' :
  ltitle block ∉ seen_titles st ->
  pass1_entry fuel st block = Some st' ->
  exists key,
    escalate fuel (key_usage st) (title_of block) (base_key block) 2 = Some key /\
    key_in key (key_usage st) = false /\
    st' = mkState (seen_titles st ∪ {[ltitle block]})
            (key_usage st ++ [(key, [info_of block])])
            (<[Entry.start_line block := format_entry block key (title_of block)]>
               (entry_replacements st)).
Proof.
  intros H. unfold pass1_entry. fold (ltitle block).
  rewrite bool_decide_eq_false_2 by done.
  destruct (escalate _ _ _ _ _) as [key|] eqn:E; [|done].
  intros [= <-]. exists key. pose proof (escalate_fresh _ _ _ _ _ _ E) as Hf.
  repeat split; [done|]. by rewrite setdefault_append_fresh.
Qed.

Lemma pass1_app fuel blocks1 blocks2 st :
  pass1 fuel (blocks1 ++ blocks2) st =
  pass1 fuel blocks1 st ≫= pass1 fuel blocks2.
Proof.
  revert st. induction blocks1 as [|b blocks1 IH]; intros st; [done|].
  cbn [app pass1]. destruct (pass1_block fuel st b); [apply IH|done].
Qed.

Lemma pass1_block_fuel_mono fuel fuel' st block st' :
  pass1_block fuel st block = Some st' -> (fuel <= fuel')%nat ->
  pass1_block fuel' st block = Some st'.
Proof.
  destruct block as [e| |]; [|done..]. cbn [pass1_block]. unfold pass1_entry.
  case_bool_decide; [done|].
  destruct (escalate fuel _ _ _ _) as [key|] eqn:E; [|done].
  intros Hst Hle. by rewrite (escalate_fuel_mono _ _ _ _ _ _ _ E Hle).
Qed.

(** A run that ends within some bound ends in the same state within any
    larger bound. *)
Lemma pass1_fuel_mono fuel fuel' blocks st st' :
  pass1 fuel blocks st = Some st' -> (fuel <= fuel')%nat ->
  pass1 fuel' blocks st = Some st'.
Proof.
  revert st. induction blocks as [|b blocks IH]; intros st; [done|].
  cbn [pass1]. destruct (pass1_block fuel st b) as [st1|] eqn:E; [|done].
  intros H Hle. rewrite (pass1_block_fuel_mono _ _ _ _ _ E Hle). by apply IH.
Qed.

Lemma pass1_seen fuel blocks st st' :
  pass1 fuel blocks st = Some st' ->
  seen_titles st' = seen_titles st ∪ list_to_set (ltitle <$> entries blocks).
Proof.
  revert st. induction blocks as [|b blocks IH]; intros st.
  - intros [= <-]. cbn. by rewrite (right_id_L ∅ (∪)).
  - cbn [pass1]. destruct (pass1_block fuel st b) as [st1|] eqn:E; [|done].
    intros H%IH. rewrite H. clear H IH.
    destruct b as [e| |]; cbn in E |- *; [|by simplify_eq..].
    destruct (decide (ltitle e ∈ seen_titles st)) as [Hin|Hin].
    + rewrite pass1_entry_skip in E by done. simplify_eq.
      rewrite (assoc_L (∪)). f_equal. symmetry.
      rewrite (comm_L (∪)). apply subseteq_union_1_L.
      by apply singleton_subseteq_l.
    + apply pass1_entry_keep in E as (key & _ & _ & ->); [|done].
      cbn. by rewrite (assoc_L (∪)).
Qed.

(** Pass 1 writes [entry_replacements] only at the lines of its entries. *)
Lemma pass1_replacements_frame fuel blocks st st' line :
  pass1 fuel blocks st = Some st' ->
  line ∉ entry_lines blocks ->
  entry_replacements st' !! line = entry_replacements st !! line.
Proof.
  revert st. induction blocks as [|b blocks IH]; intros st.
  - by intros [= <-].
  - cbn [pass1]. destruct (pass1_block fuel st b) as [st1|] eqn:E; [|done].
    intros H Hline.
    destruct b as [e| |]; cbn in E, Hline; [|simplify_eq; by apply IH..].
    apply not_elem_of_cons in Hline as [Hne Hline].
    rewrite (IH _ H Hline). clear H IH.
    destruct (decide (ltitle e ∈ seen_titles st)) as [Hin|Hin].
    + rewrite pass1_entry_skip in E by done. by simplify_eq.
    + apply pass1_entry_keep in E as (key & _ & _ & ->); [|done].
      cbn. by rewrite lookup_insert_ne.
Qed.

(** What Pass 1 decides for one entry: dropped when an earlier entry has
    the same lower-cased normalized title, kept with a replacement text at
    its line otherwise. *)
Lemma pass1_entry_fate fuel before block after st :
  pass1 fuel (before ++ EntryBlock block :: after) initial_state = Some st ->
  NoDup (entry_lines (before ++ EntryBlock block :: after)) ->
  if bool_decide (ltitle block ∈ ltitle <$> entries before)
  then entry_replacements st !! Entry.start_line block = None
  else exists key,
    entry_replacements st !! Entry.start_line block =
    Some (format_entry block key (title_of block)).
Proof.
  rewrite pass1_app. cbn [pass1].
  destruct (pass1 fuel before initial_state) as [st1|] eqn:E1; [|done].
  cbn [mbind option_bind pass1_block].
  destruct (pass1_entry fuel st1 block) as [st2|] eqn:E2; [|done].
  intros E3 Hnodup.
  unfold entry_lines, entries in Hnodup.
  rewrite omap_app, fmap_app in Hnodup. cbn in Hnodup.
  fold (entries before) (entries after) in Hnodup.
  apply NoDup_app in Hnodup as (_ & Hbefore & Hafter).
  apply NoDup_cons in Hafter as [Hafter _].
  rewrite (pass1_replacements_frame _ _ _ _ _ E3 Hafter).
  pose proof (pass1_seen _ _ _ _ E1) as Hseen. cbn in Hseen.
  rewrite (left_id_L ∅ (∪)) in Hseen.
  case_bool_decide as Hearlier.
  - rewrite pass1_entry_skip in E2
      by (rewrite Hseen; by apply elem_of_list_to_set).
    simplify_eq.
    rewrite (pass1_replacements_frame _ _ _ _ _ E1); [done|].
    intros Hin. apply (Hbefore _ Hin). left.
  - apply pass1_entry_keep in E2 as (key & _ & _ & ->);
      [|rewrite Hseen; by rewrite elem_of_list_to_set].
    exists key. cbn. apply lookup_insert_eq.
Qed.

Lemma pass1_usage fuel blocks st0 st :
  pass1 fuel blocks st0 = Some st ->
  let kept := kept_entries (seen_titles st0) (entries blocks) in
  exists keys,
    length keys = length kept /\
    key_usage st =
      key_usage st0 ++ zip_with (fun key e => (key, [info_of e])) keys kept /\
    NoDup keys /\
    (forall key, key ∈ keys -> key ∉ (key_usage st0).*1) /\
    (NoDup (entry_lines blocks) ->
     forall i key e, keys !! i = Some key -> kept !! i = Some e ->
       entry_replacements st !! Entry.start_line e =
       Some (format_entry e key (title_of e))).
Proof.
  revert st0. induction blocks as [|b blocks IH]; intros st0.
  - intros [= <-]. exists []. cbn. rewrite app_nil_r.
    repeat split; [constructor|by intros ? ?%elem_of_nil|done].
  - cbn [pass1]. destruct (pass1_block fuel st0 b) as [st1|] eqn:E; [|done].
    intros Hrest. destruct (IH _ Hrest) as (keys & Hlen & Husage & Hnd & Hfresh & Hrepl).
    destruct b as [e| |]; cbn in E; [|simplify_eq; by exists keys..].
    change (entries (EntryBlock e :: blocks)) with (e :: entries blocks).
    change (entry_lines (EntryBlock e :: blocks))
      with (Entry.start_line e :: entry_lines blocks).
    cbn [kept_entries].
    destruct (decide (ltitle e ∈ seen_titles st0)) as [Hin|Hin].
    + rewrite pass1_entry_skip in E by done. simplify_eq.
      rewrite bool_decide_eq_true_2 by done. exists keys.
      repeat split; try done.
      intros [_ Hlines]%NoDup_cons. by apply Hrepl.
    + apply pass1_entry_keep in E as (key & _ & Hkey & ->); [|done].
      rewrite bool_decide_eq_false_2 by done. cbn in *.
      apply bool_decide_eq_false in Hkey.
      exists (key :: keys). repeat split.
      * cbn. by rewrite Hlen.
      * rewrite Husage. by rewrite <- app_assoc.
      * constructor; [|done]. intros Hk%Hfresh. apply Hk.
        rewrite fmap_app. apply elem_of_app. right. cbn. left.
      * intros k [->|Hk]%elem_of_cons; [done|].
        intros Hk0. apply (Hfresh _ Hk).
        rewrite fmap_app. apply elem_of_app. by left.
      * intros [Hline Hlines]%NoDup_cons [|i] k e' Hk He'; simplify_eq/=.
        -- rewrite (pass1_replacements_frame _ _ _ _ _ Hrest Hline).
           cbn. apply lookup_insert_eq.
        -- by eapply Hrepl.
Qed.

(** C1 (amended).  Suppose Pass 1 ends and the entries start on different
    lines.  An entry whose lower-cased normalized title is not the title of
    an earlier entry gets a replacement text, which Pass 2 writes at the
    entry's place followed by a line break; an entry whose title is the
    title of an earlier entry gets none, and Pass 2 writes nothing for
    it. *)
Theorem title_deduplication
    (fuel : nat) (before after : list Block) (block : Entry.t) (st : State) :
  pass1 fuel (before ++ EntryBlock block :: after) initial_state = Some st ->
  NoDup (entry_lines (before ++ EntryBlock block :: after)) ->
  exists text,
    pass2 (entry_replacements st) (before ++ EntryBlock block :: after) =
      pass2 (entry_replacements st) before ++ text ++
      pass2 (entry_replacements st) after /\
    (ltitle block ∉ ltitle <$> entries before ->
     exists key,
       entry_replacements st !! Entry.start_line block =
         Some (format_entry block key (title_of block)) /\
       text = format_entry block key (title_of block) ++ [Py.newline]) /\
    (ltitle block ∈ ltitle <$> entries before ->
     entry_replacements st !! Entry.start_line block = None /\ text = []).
Proof.
  intros Hrun Hlines.
  pose proof (pass1_entry_fate _ _ _ _ _ Hrun Hlines) as Hfate.
  exists (emit_block (entry_replacements st) (EntryBlock block)). split.
  { change (EntryBlock block :: after) with ([EntryBlock block] ++ after).
    rewrite !pass2_app, (pass2_concat _ [EntryBlock block]).
    cbn [List.map concat]. by rewrite app_nil_r. }
  case_bool_decide as Hearlier; split; try done.
  - intros _. split; [done|]. unfold emit_block. by rewrite Hfate.
  - intros _. destruct Hfate as [key Hkey]. exists key. split; [done|].
    unfold emit_block. by rewrite Hkey.
Qed.

Lemma title_of_missing block :
  Entry.fields_dict block !! Py.lit "title" = None -> title_of block = [].
Proof. intros H. unfold title_of, get_field. by rewrite H. Qed.

(** C10 (amended).  Suppose Pass 1 ends and the entries start on
    different lines.  Take an entry without a [title] field, or whose title
    normalizes to the empty string.  When every earlier entry has a
    non-empty normalized title, the entry is kept, its replacement text
    opens with an empty title and Pass 2 writes it followed by a line
    break; when an earlier entry has an empty normalized title too, the
    entry gets no replacement text and Pass 2 writes nothing for it.
    ([str.lower] maps only the empty string to the empty string.) *)
Theorem titleless_entries_deduplicate
    (fuel : nat) (before after : list Block) (block : Entry.t) (st : State) :
  (forall t, str_lower t = str_lower [] -> t = []) ->
  pass1 fuel (before ++ EntryBlock block :: after) initial_state = Some st ->
  NoDup (entry_lines (before ++ EntryBlock block :: after)) ->
  Entry.fields_dict block !! Py.lit "title" = None \/ title_of block = [] ->
  (Forall (fun e => title_of e ≠ []) (entries before) ->
   exists key,
     entry_replacements st !! Entry.start_line block =
       Some (format_entry block key []) /\
     emit_block (entry_replacements st) (EntryBlock block) =
       format_entry block key [] ++ [Py.newline] /\
     format_entry block key [] =
       Py.join [Py.newline]
         ((Py.lit "@" ++ Entry.entry_type block ++ Py.lit "{" ++ key ++
           Py.lit ", title = {}" ++ [Py.comma]) ::
          field_lines (other_fields block) ++ [Py.lit "}"])) /\
  (Exists (fun e => title_of e = []) (entries before) ->
   entry_replacements st !! Entry.start_line block = None /\
   emit_block (entry_replacements st) (EntryBlock block) = []).
Proof.
  intros Hlower Hrun Hlines Htitle.
  assert (Hempty : title_of block = [])
    by (destruct Htitle; [by apply title_of_missing|done]).
  pose proof (pass1_entry_fate _ _ _ _ _ Hrun Hlines) as Hfate.
  assert (Hiff : ltitle block ∈ ltitle <$> entries before <->
                 Exists (fun e => title_of e = []) (entries before)).
  { unfold ltitle at 1. rewrite Hempty, list_elem_of_fmap, Exists_exists.
    split.
    - intros (e & Heq & He). exists e. split; [done|].
      apply Hlower. by rewrite Heq.
    - intros (e & He & Hnil). exists e. split; [|done].
      unfold ltitle. by rewrite Hnil. }
  case_bool_decide as Hearlier; split.
  - intros Hall. apply Hiff in Hearlier as (e & He & Hnil)%Exists_exists.
    rewrite Forall_forall in Hall. by destruct (Hall e He).
  - intros _. split; [done|]. unfold emit_block. by rewrite Hfate.
  - intros _. destruct Hfate as [key Hkey]. rewrite Hempty in Hkey.
    exists key. split; [done|]. split.
    { unfold emit_block. by rewrite Hkey. }
    rewrite format_entry_lines. unfold opening_line.
    by rewrite <- !app_assoc.
  - intros Hex%Hiff. done.
Qed.

Lemma usage_keys (keys : list Py.str) (kept : list Entry.t) :
  length keys = length kept ->
  (zip_with (fun key e => (key, [info_of e])) keys kept).*1 = keys.
Proof.
  revert kept. induction keys as [|k keys IH]; intros [|e kept] Hlen; try done.
  cbn. f_equal. apply IH. by injection Hlen.
Qed.

(** C2.  When Pass 1 ends, [key_usage] holds, in block order, one key per
    kept entry with exactly that entry's provenance record; the keys are
    pairwise different, and (the entries starting on different lines) the
    key of a kept entry is the one in its replacement text. *)
Theorem derived_keys_unique (fuel : nat) (blocks : list Block) (st : State) :
  pass1 fuel blocks initial_state = Some st ->
  exists keys,
    NoDup keys /\
    length keys = length (kept_entries ∅ (entries blocks)) /\
    key_usage st =
      zip_with (fun key e => (key, [info_of e])) keys
        (kept_entries ∅ (entries blocks)) /\
    NoDup (key_usage st).*1 /\
    Forall (fun usage => length (snd usage) = 1%nat) (key_usage st) /\
    (NoDup (entry_lines blocks) ->
     forall i key e,
       keys !! i = Some key -> kept_entries ∅ (entries blocks) !! i = Some e ->
       entry_replacements st !! Entry.start_line e =
       Some (format_entry e key (title_of e))).
Proof.
  intros Hrun.
  destruct (pass1_usage _ _ _ _ Hrun) as (keys & Hlen & Husage & Hnd & _ & Hrepl).
  cbn in Hlen, Husage, Hrepl.
  exists keys. repeat split; try done.
  - rewrite Husage. by rewrite usage_keys.
  - rewrite Husage. apply Forall_forall. intros p Hin.
    apply elem_of_lookup_zip_with in Hin as (i & k' & e' & -> & _ & _). done.
Qed.

(** The conflict report prints nothing after a Pass 1 that ends. *)
Lemma report_conflicts_silent fuel blocks st out :
  pass1 fuel blocks initial_state = Some st ->
  report_conflicts (key_usage st) out = out.
Proof.
  intros Hrun.
  destruct (pass1_usage _ _ _ _ Hrun) as (keys & _ & Husage & _).
  cbn in Husage. rewrite Husage. clear Husage.
  generalize (kept_entries ∅ (entries blocks)) as kept. revert out.
  unfold report_conflicts.
  induction keys as [|k keys IH]; intros out [|e kept]; try done.
  cbn. apply IH.
Qed.

(** An entry that is not a duplicate, whose base key is taken and whose
    title has no abbreviation at any [n] never leaves the escalation loop. *)
Lemma pass1_stuck fuel before block after st0 :
  (forall st1, pass1 fuel before st0 = Some st1 ->
     (ltitle block ∉ seen_titles st1) /\
     key_in (base_key block) (key_usage st1) = true) ->
  (forall n, extract_title_abbreviation (title_of block) true n = []) ->
  pass1 fuel (before ++ EntryBlock block :: after) st0 = None.
Proof.
  intros Hbefore Habbr. rewrite pass1_app.
  destruct (pass1 fuel before st0) as [st1|]; [|done].
  destruct (Hbefore st1 eq_refl) as [Hseen Hkey].
  cbn [mbind option_bind pass1 pass1_block]. unfold pass1_entry.
  fold (ltitle block). rewrite bool_decide_eq_false_2 by done.
  by rewrite escalate_stuck.
Qed.

(** The loop ends at the first candidate that is not taken. *)
Lemma escalate_first_free usage title key j fuel :
  (forall i, (i < j)%nat -> key_in (candidate title key i) usage = true) ->
  key_in (candidate title key j) usage = false ->
  escalate (j + S fuel) usage title key 2 = Some (candidate title key j).
Proof.
  intros Htaken Hfree. rewrite escalate_steps by done.
  cbn [escalate]. by rewrite Hfree.
Qed.

(** ** The script as a whole *)

(** Without duplicate blocks, and when Pass 1 ends, the script writes the
    output of Pass 2 to [<input>.reformatted] and exits with status 0. *)
Lemma main_success fuel script input_file parse_file st :
  duplicate_blocks (parse_file input_file) = [] ->
  pass1 fuel (parse_file input_file) initial_state = Some st ->
  exists out,
    main fuel [script; input_file] parse_file =
    Some (mkOutcome 0 out []
            (Some (input_file ++ Py.lit ".reformatted",
                   pass2 (entry_replacements st) (parse_file input_file)))).
Proof.
  intros Hdups Hrun. unfold main. rewrite Hdups, Hrun. by eexists.
Qed.

(** X18.  With any number of command-line arguments other than one, the
    script prints the usage line and exits with status 1; it parses and
    writes nothing. *)
Theorem main_usage fuel argv parse_file :
  length argv ≠ 2%nat ->
  main fuel argv parse_file =
  Some (mkOutcome 1 (Py.lit "Usage: python script.py input.bib" ++ [Py.newline])
          [] None).
Proof.
  intros Hlen. unfold main.
  destruct argv as [|a0 [|a1 [|a2 argv]]]; done.
Qed.

(** ** More on the title normalizer *)

Lemma visible_lstrip s : visible (Py.lstrip s) = visible s.
Proof.
  unfold visible. induction s as [|c s IH]; [done|]. cbn [Py.lstrip].
  destruct (Py.isspace c) eqn:E; [|done]. cbn [List.filter]. by rewrite E.
Qed.

Lemma visible_rstrip s : visible (Py.rstrip s) = visible s.
Proof.
  unfold visible. induction s as [|c s IH]; [done|]. cbn [Py.rstrip].
  destruct (Py.rstrip s) as [|r rs].
  - cbn [List.filter] in IH |- *. rewrite <- IH.
    destruct (Py.isspace c) eqn:E; cbn [List.filter]; by rewrite ?E.
  - cbn [List.filter] in IH |- *. by rewrite IH.
Qed.

Lemma visible_sub_ws_from b s : visible (Py.sub_ws_from b s) = visible s.
Proof.
  unfold visible. revert b. induction s as [|c s IH]; intros b; [done|].
  cbn [Py.sub_ws_from List.filter].
  destruct (Py.isspace c) eqn:E; cbn [negb].
  - destruct b; [apply IH|]. cbn [List.filter].
    change (Py.isspace Py.space) with true. apply IH.
  - cbn [List.filter]. rewrite E. cbn [negb]. by rewrite IH.
Qed.

Lemma visible_remove_braces x :
  visible (Py.remove_char Py.rbrace (Py.remove_char Py.lbrace x)) =
  List.filter (fun c => negb (blank_char c)) x.
Proof.
  unfold visible, Py.remove_char, blank_char.
  induction x as [|c x IH]; [done|]. cbn [List.filter].
  destruct (c =? Py.lbrace) eqn:El; cbn [negb].
  - rewrite orb_true_r. cbn [orb negb]. apply IH.
  - cbn [List.filter]. destruct (c =? Py.rbrace) eqn:Er; cbn [negb].
    + rewrite orb_true_r. cbn [negb]. apply IH.
    + cbn [List.filter]. rewrite !orb_false_r.
      destruct (Py.isspace c); cbn [negb]; by rewrite IH.
Qed.

Lemma visible_clean_title_for_key x :
  visible (clean_title_for_key x) = List.filter (fun c => negb (blank_char c)) x.
Proof.
  rewrite clean_title_for_key_unfold. unfold Py.strip, Py.sub_ws.
  by rewrite visible_rstrip, visible_lstrip, visible_sub_ws_from,
    visible_remove_braces.
Qed.

Lemma collapsed_space s c :
  collapsed s -> c ∈ s -> Py.isspace c = true -> c = Py.space.
Proof.
  induction s as [|d s IH]; [by intros _ ?%elem_of_nil|].
  intros [Hd Hs] [->|Hc]%elem_of_cons Hsp; [by apply Hd|by apply IH].
Qed.

Lemma visible_nil_lstrip s : visible s = [] -> Py.lstrip s = [].
Proof.
  unfold visible. induction s as [|c s IH]; [done|].
  cbn [List.filter Py.lstrip]. destruct (Py.isspace c); [exact IH|done].
Qed.

(** X1.  A normalized title has no white space at either end, and its
    white space is single spaces: stripping it or collapsing its white
    space again changes nothing, and every white space character in it is
    the space character. *)
Theorem clean_title_for_key_shape (x : Py.str) :
  Py.strip (clean_title_for_key x) = clean_title_for_key x /\
  Py.sub_ws (clean_title_for_key x) = clean_title_for_key x /\
  starts_nonws (clean_title_for_key x) /\
  (forall c, c ∈ clean_title_for_key x -> Py.isspace c = true -> c = Py.space).
Proof.
  split; [|split; [|split]].
  - rewrite clean_title_for_key_unfold. apply strip_idemp.
  - unfold Py.sub_ws. apply sub_ws_from_id; [|discriminate].
    apply clean_title_for_key_collapsed.
  - rewrite clean_title_for_key_unfold. unfold Py.strip.
    apply rstrip_starts_nonws, lstrip_starts_nonws.
  - intros c. apply collapsed_space, clean_title_for_key_collapsed.
Qed.

(** X2.  Normalizing a title removes braces and white space only: the
    characters of the result that are not white space are, in the same
    order, the characters of the input that are neither white space nor a
    brace. *)
Theorem clean_title_for_key_keeps_text (x : Py.str) :
  List.filter (fun c => negb (Py.isspace c)) (clean_title_for_key x) =
  List.filter
    (fun c => negb (Py.isspace c || (c =? Py.lbrace) || (c =? Py.rbrace))) x.
Proof. apply visible_clean_title_for_key. Qed.

(** X3.  The normalized title is empty exactly when the title consists of
    white space and braces only. *)
Theorem clean_title_for_key_empty_iff (x : Py.str) :
  clean_title_for_key x = [] <-> forallb blank_char x = true.
Proof.
  split.
  - intros Hnil. pose proof (visible_clean_title_for_key x) as H.
    rewrite Hnil in H. cbn in H. symmetry in H.
    apply forallb_forall. intros c Hc.
    destruct (blank_char c) eqn:E; [done|].
    assert (Hin : In c (List.filter (fun c => negb (blank_char c)) x))
      by (apply filter_In; by rewrite E).
    rewrite H in Hin. destruct Hin.
  - intros Hall.
    assert (Hvis : visible (clean_title_for_key x) = []).
    { rewrite visible_clean_title_for_key.
      rewrite forallb_forall in Hall.
      induction x as [|c x IH]; [done|]. cbn [List.filter].
      rewrite (Hall c) by (by left). cbn [negb].
      apply IH. intros d Hd. apply Hall. by right. }
    assert (Hstrip : Py.strip (clean_title_for_key x) = clean_title_for_key x)
      by (rewrite clean_title_for_key_unfold; apply strip_idemp).
    rewrite <- Hstrip. unfold Py.strip. by rewrite (visible_nil_lstrip _ Hvis).
Qed.

(** ** The surname token *)

Lemma ascii_lower_char_lower c :
  Py.is_ascii_letter c = true -> is_lower_letter (Py.ascii_lower_char c) = true.
Proof.
  unfold Py.is_ascii_letter, Py.ascii_lower_char, is_lower_letter.
  destruct (N.leb_spec 65 c), (N.leb_spec c 90), (N.leb_spec 97 c),
    (N.leb_spec c 122); cbn; try done; intros _;
    apply andb_true_iff; split; apply N.leb_le; lia.
Qed.

Lemma filter_letters_Forall s :
  Forall (fun c => Py.is_ascii_letter c = true)
         (List.filter Py.is_ascii_letter s).
Proof.
  apply Forall_forall. intros c [_ Hc]%list_elem_of_In%filter_In. exact Hc.
Qed.

Lemma filter_letters_none s :
  Forall (fun c => Py.is_ascii_letter c = false) s ->
  List.filter Py.is_ascii_letter s = [].
Proof.
  induction 1 as [|c s Hc _ IH]; [done|]. cbn [List.filter]. by rewrite Hc.
Qed.

Lemma first_author_subset c author : c ∈ first_author author -> c ∈ author.
Proof.
  induction author as [|d author IH]; [done|]. cbn [first_author].
  destruct (and_separator_at _); [by intros ?%elem_of_nil|].
  intros [->|H]%elem_of_cons; [left|right; auto].
Qed.

Lemma before_char_subset c d s : d ∈ Py.before_char c s -> d ∈ s.
Proof.
  induction s as [|e s IH]; [done|]. cbn [Py.before_char].
  destruct (e =? c); [by intros ?%elem_of_nil|].
  intros [->|H]%elem_of_cons; [left|right; auto].
Qed.

Lemma split_from_subset word s w c :
  w ∈ Py.split_from word s -> c ∈ w -> c ∈ word \/ c ∈ s.
Proof.
  revert word. induction s as [|d s IH]; intros word; cbn [Py.split_from].
  - destruct word; [by intros ?%elem_of_nil|].
    intros ->%list_elem_of_singleton. by left.
  - destruct (Py.isspace d).
    + destruct word as [|w0 word].
      * intros Hw Hc. destruct (IH _ Hw Hc) as [?%elem_of_nil|?]; [done|].
        right. by right.
      * intros [->|Hw]%elem_of_cons Hc; [by left|].
        destruct (IH _ Hw Hc) as [?%elem_of_nil|?]; [done|]. right. by right.
    + intros Hw Hc. destruct (IH _ Hw Hc) as [Hword|?]; [|right; by right].
      apply elem_of_app in Hword as [?|Hd]; [by left|].
      apply list_elem_of_singleton in Hd as ->. right. left.
Qed.

Lemma strip_subset c s : c ∈ Py.strip s -> c ∈ s.
Proof. unfold Py.strip. by intros ?%rstrip_subset%lstrip_subset. Qed.

(** The text the surname is taken from is made of characters of the author
    field, or is the word [unknown]. *)
Lemma surname_source author :
  let first := Py.strip (first_author author) in
  let last_ :=
    if Py.contains Py.comma first then Py.before_char Py.comma first
    else match last (Py.split first) with
         | Some w => w
         | None => Py.lit "unknown"
         end in
  last_ = Py.lit "unknown" \/ forall c, c ∈ last_ -> c ∈ author.
Proof.
  cbn zeta. destruct (Py.contains _ _).
  - right. intros c Hc%before_char_subset%strip_subset.
    by apply first_author_subset.
  - destruct (last _) as [w|] eqn:E; [|by left].
    right. intros c Hc. apply last_Some_elem_of in E.
    destruct (split_from_subset _ _ _ _ E Hc) as [?%elem_of_nil|H]; [done|].
    by apply first_author_subset, strip_subset.
Qed.

Lemma extract_lastname_unfold author :
  author ≠ [] ->
  extract_lastname author =
  let first := Py.strip (first_author author) in
  let last_ :=
    if Py.contains Py.comma first then Py.before_char Py.comma first
    else match last (Py.split first) with
         | Some w => w
         | None => Py.lit "unknown"
         end in
  match str_lower (List.filter Py.is_ascii_letter last_) with
  | [] => Py.lit "unknown"
  | name => name
  end.
Proof. by destruct author. Qed.

(** X4.  The surname token is never empty and consists of the letters [a]
    to [z] only, whatever the author field holds ([str.lower] being the
    ASCII mapping on ASCII letters). *)
Theorem extract_lastname_lowercase_letters (author : Py.str) :
  lower_is_ascii_on_letters ->
  extract_lastname author ≠ [] /\
  forallb is_lower_letter (extract_lastname author) = true.
Proof.
  intros Hlower. destruct author as [|a author]; [by split|].
  rewrite extract_lastname_unfold by done. cbn zeta.
  set (last_ := if Py.contains _ _ then _ else _).
  rewrite (Hlower _ (filter_letters_Forall last_)).
  pose proof (filter_letters_Forall last_) as Hletters.
  destruct (List.filter Py.is_ascii_letter last_) as [|c l]; [by split|].
  change (Py.ascii_lower (c :: l))
    with (Py.ascii_lower_char c :: Py.ascii_lower l).
  split; [done|]. apply forallb_forall. intros d Hd.
  change (In d (List.map Py.ascii_lower_char (c :: l))) in Hd.
  apply in_map_iff in Hd as (e & <- & He).
  apply ascii_lower_char_lower. rewrite Forall_forall in Hletters.
  by apply Hletters, list_elem_of_In.
Qed.

(** X5.  An author field without any ASCII letter (empty, digits,
    punctuation, other scripts) gives the surname token [unknown]. *)
Theorem extract_lastname_without_letters (author : Py.str) :
  lower_is_ascii_on_letters ->
  forallb (fun c => negb (Py.is_ascii_letter c)) author = true ->
  extract_lastname author = Py.lit "unknown".
Proof.
  intros Hlower Hnone. destruct author as [|a author]; [done|].
  rewrite extract_lastname_unfold by done. cbn zeta.
  destruct (surname_source (a :: author)) as [Hu|Hsub]; cbn zeta in *.
  - rewrite Hu, Hlower; [reflexivity|].
    repeat (constructor; [reflexivity|]). constructor.
  - rewrite filter_letters_none; [by rewrite (Hlower [])|].
    apply Forall_forall. intros c Hc%Hsub%list_elem_of_In.
    rewrite forallb_forall in Hnone. apply Hnone in Hc.
    by apply negb_true_iff.
Qed.

(** ** The year token and the base key *)

(** X6.  The year token always has the form the key needs: exactly four
    decimal digits. *)
Theorem year_of_four_digits (block : Entry.t) :
  length (year_of block) = 4%nat /\ forallb Py.isdecimal (year_of block) = true.
Proof.
  unfold year_of. set (year := if has_field _ _ then _ else _).
  destruct (Py.fullmatch_d4 year) eqn:E; [|by vm_compute].
  unfold Py.fullmatch_d4 in E. apply andb_true_iff in E as [Hlen Hall].
  split; [by apply Nat.eqb_eq|done].
Qed.

Lemma last_value_absent name fields :
  Forall (fun f => Field.key f ≠ name) fields -> last_value name fields = None.
Proof.
  intros H. unfold last_value.
  replace (List.filter _ fields) with (@nil Field.t); [done|].
  induction H as [|f fields Hf _ IH]; [done|]. cbn [List.filter].
  unfold Py.eqb at 1. by rewrite bool_decide_eq_false_2.
Qed.

(** X7.  An entry with no field named [author], [AUTHOR], [year] or [YEAR]
    gets the base key [unknown0000]. *)
Theorem base_key_without_author_and_year (block : Entry.t) :
  lower_is_ascii_on_letters ->
  Forall (fun f => Field.key f ∉ Py.lit <$> ["author"; "AUTHOR"; "year"; "YEAR"]%string)
         (Entry.fields block) ->
  base_key block = Py.lit "unknown0000".
Proof.
  intros Hlower Hnone.
  assert (Habsent : forall name,
    name ∈ Py.lit <$> ["author"; "AUTHOR"; "year"; "YEAR"]%string ->
    last_value name (Entry.fields block) = None).
  { intros name Hname. apply last_value_absent.
    eapply Forall_impl; [exact Hnone|]. intros f Hf Heq. apply Hf.
    by rewrite Heq. }
  unfold base_key, author_of, year_of.
  rewrite !has_field_last_value.
  rewrite !Habsent by (cbn; repeat first [apply list_elem_of_here | apply list_elem_of_further]).
  cbn [bool_decide decide_rel is_Some_dec]. 
  assert (Hname : extract_lastname (Py.lit "unknown") = Py.lit "unknown").
  { rewrite extract_lastname_unfold by (vm_compute; discriminate). cbn zeta.
    set (l := List.filter _ _).
    assert (Hl : l = Py.lit "unknown") by (by vm_compute).
    rewrite Hl, Hlower; [reflexivity|].
    repeat (constructor; [reflexivity|]). constructor. }
  rewrite Hname. reflexivity.
Qed.

(** ** The escalation loop *)

Lemma escalate_result_from usage title key fuel j0 key' :
  escalate fuel usage title (candidate title key j0) (escalation_n j0) = Some key' ->
  exists j,
    (j0 <= j < j0 + fuel)%nat /\ key' = candidate title key j /\
    key_in key' usage = false /\
    (forall i, (j0 <= i < j)%nat -> key_in (candidate title key i) usage = true).
Proof.
  revert j0. induction fuel as [|fuel IH]; intros j0; [done|].
  cbn [escalate]. destruct (key_in (candidate title key j0) usage) eqn:E.
  - rewrite <- escalation_n_succ.
    change (candidate title key j0 ++ _) with (candidate title key (S j0)).
    intros (j & Hj & -> & Hfree & Htaken)%IH. exists j.
    repeat split; [lia|lia|done|].
    intros i Hi. destruct (decide (i = j0)) as [->|]; [done|].
    apply Htaken. lia.
  - intros [= <-]. exists j0. repeat split; [lia|lia|done|]. intros i Hi. lia.
Qed.

(** X8.  The loop leaves with a key exactly when one of the candidates
    [key], [key + abbr(2)], [key + abbr(2) + abbr(4)], ... is not in
    [key_usage], and then with the first such candidate. *)
Theorem escalate_result_iff
    (usage : list (Py.str * list Info.t)) (title key key' : Py.str)
    (fuel : nat) :
  escalate fuel usage title key 2 = Some key' <->
  exists j,
    (j < fuel)%nat /\ key' = candidate title key j /\
    key_in key' usage = false /\
    (forall i, (i < j)%nat -> key_in (candidate title key i) usage = true).
Proof.
  split.
  - intros H. destruct (escalate_result_from usage title key fuel 0 key' H)
      as (j & Hj & -> & Hfree & Htaken).
    exists j. repeat split; [lia|done|]. intros i Hi. apply Htaken. lia.
  - intros (j & Hj & -> & Hfree & Htaken).
    replace fuel with (j + S (fuel - S j))%nat by lia.
    by apply escalate_first_free.
Qed.

(** Past the end of the content words the abbreviation is empty. *)
Lemma abbreviation_beyond_words title use_nlp n :
  (2 <= n)%Z ->
  (Z.of_nat (length (refine use_nlp (tokenize title))) <= n - 2)%Z ->
  extract_title_abbreviation title use_nlp n = [].
Proof.
  intros Hn Hlen. unfold extract_title_abbreviation.
  destruct title as [|c title]; [done|].
  destruct (tokenize (c :: title)) as [|w ws] eqn:E; [done|].
  unfold selected. rewrite slice_nonneg by lia.
  rewrite drop_ge by lia. by rewrite take_nil.
Qed.

Lemma escalation_n_le i j : (i <= j)%nat -> (escalation_n i <= escalation_n j)%Z.
Proof.
  intros [Hlt| ->]%Nat.lt_eq_cases; [|done].
  pose proof (escalation_n_mono i j Hlt). lia.
Qed.

Lemma candidate_stable title key J j :
  (Z.of_nat (length (refine true (tokenize title))) <= escalation_n J - 2)%Z ->
  (J <= j)%nat -> candidate title key j = candidate title key J.
Proof.
  intros Hlen. induction 1 as [|j Hj IH]; [done|].
  cbn [candidate]. rewrite IH, abbreviation_beyond_words.
  - apply app_nil_r.
  - apply escalation_n_ge.
  - pose proof (escalation_n_le J j Hj). lia.
Qed.

(** X9.  Once the window has moved past the content words nothing is
    appended any more: if the candidates up to step [J] are all taken and
    the title has at most [2^(J+1) - 2] (refined) content words, the loop
    never leaves, whatever the bound. *)
Theorem escalate_never_ends_past_words
    (usage : list (Py.str * list Info.t)) (title key : Py.str) (J fuel : nat) :
  (forall i, (i <= J)%nat -> key_in (candidate title key i) usage = true) ->
  (Z.of_nat (length (refine true (tokenize title))) <= escalation_n J - 2)%Z ->
  escalate fuel usage title key 2 = None.
Proof.
  intros Htaken Hlen.
  destruct (escalate fuel usage title key 2) as [key'|] eqn:E; [|done].
  destruct (escalate_result_from usage title key fuel 0 key' E)
    as (j & _ & -> & Hfree & _).
  destruct (Nat.le_gt_cases j J) as [Hle|Hgt].
  - by rewrite Htaken in Hfree.
  - rewrite (candidate_stable title key J j Hlen) in Hfree by lia.
    by rewrite Htaken in Hfree.
Qed.

Lemma escalate_prefix fuel usage title key n key' :
  escalate fuel usage title key n = Some key' -> key `prefix_of` key'.
Proof.
  revert key n. induction fuel as [|fuel IH]; intros key n; [done|].
  cbn [escalate]. destruct (key_in key usage).
  - intros H%IH. by eapply prefix_app_l.
  - by intros [= <-].
Qed.

Lemma pass1_usage_base_keys fuel blocks st0 st :
  pass1 fuel blocks st0 = Some st ->
  exists new,
    key_usage st = key_usage st0 ++ new /\
    Forall (fun usage => exists e, e ∈ entries blocks /\
                                   snd usage = [info_of e] /\
                                   base_key e `prefix_of` fst usage) new.
Proof.
  revert st0. induction blocks as [|b blocks IH]; intros st0.
  - intros [= <-]. exists []. by rewrite app_nil_r.
  - cbn [pass1]. destruct (pass1_block fuel st0 b) as [st1|] eqn:E; [|done].
    intros (new & Hnew & Hall)%IH.
    assert (Hweaken : Forall (fun usage => exists e, e ∈ entries (b :: blocks) /\
                                   snd usage = [info_of e] /\
                                   base_key e `prefix_of` fst usage) new).
    { eapply Forall_impl; [exact Hall|]. intros p (e & He & Hp).
      exists e. split; [|done]. destruct b; cbn; [by right|done..]. }
    destruct b as [e| |]; cbn in E; [|simplify_eq; by exists new..].
    destruct (decide (ltitle e ∈ seen_titles st0)) as [Hin|Hin].
    + rewrite pass1_entry_skip in E by done. simplify_eq. by exists new.
    + apply pass1_entry_keep in E as (key & Hkey & _ & ->); [|done].
      cbn in Hnew. exists ((key, [info_of e]) :: new). split.
      * by rewrite Hnew, <- app_assoc.
      * constructor; [|done]. exists e. cbn. split; [left|].
        split; [done|]. by eapply escalate_prefix.
Qed.

(** X10.  After a Pass 1 that ends, every key in [key_usage] belongs to an
    entry of the input, carries that entry's provenance record, and starts
    with the entry's surname token followed by its year token. *)
Theorem derived_keys_start_with_base_key
    (fuel : nat) (blocks : list Block) (st : State) :
  pass1 fuel blocks initial_state = Some st ->
  Forall (fun usage => exists e, e ∈ entries blocks /\
                                 snd usage = [info_of e] /\
                                 (extract_lastname (author_of e) ++ year_of e)
                                   `prefix_of` fst usage)
         (key_usage st).
Proof.
  intros (new & -> & Hall)%pass1_usage_base_keys. exact Hall.
Qed.

(** ** More on the two passes and the script *)

(** X11.  Pass 1 looks at entries only: comments, strings, preambles and
    failed blocks between them change neither the decisions nor the state. *)
Theorem pass1_ignores_other_blocks
    (fuel : nat) (blocks : list Block) (st : State) :
  pass1 fuel blocks st = pass1 fuel (EntryBlock <$> entries blocks) st.
Proof.
  revert st. induction blocks as [|b blocks IH]; intros st; [done|].
  destruct b as [e| |]; cbn [pass1 pass1_block]; [|apply IH..].
  change (entries (EntryBlock e :: blocks)) with (e :: entries blocks).
  cbn [fmap list_fmap pass1 pass1_block].
  destruct (pass1_entry fuel st e); [apply IH|done].
Qed.

Lemma kept_entries_sublist seen es : kept_entries seen es `sublist_of` es.
Proof.
  revert seen. induction es as [|e es IH]; intros seen; [done|].
  cbn [kept_entries]. case_bool_decide.
  - by apply sublist_cons.
  - by apply sublist_skip.
Qed.

Lemma pass1_replacements_dom fuel blocks st0 st :
  pass1 fuel blocks st0 = Some st ->
  dom (entry_replacements st) =
  dom (entry_replacements st0) ∪
  list_to_set
    (Entry.start_line <$> kept_entries (seen_titles st0) (entries blocks)).
Proof.
  revert st0. induction blocks as [|b blocks IH]; intros st0.
  - intros [= <-]. cbn. by rewrite (right_id_L ∅ (∪)).
  - cbn [pass1]. destruct (pass1_block fuel st0 b) as [st1|] eqn:E; [|done].
    intros H%IH. rewrite H. clear H IH.
    destruct b as [e| |]; cbn in E; [|by simplify_eq..].
    change (entries (EntryBlock e :: blocks)) with (e :: entries blocks).
    cbn [kept_entries].
    destruct (decide (ltitle e ∈ seen_titles st0)) as [Hin|Hin].
    + rewrite pass1_entry_skip in E by done. simplify_eq.
      by rewrite bool_decide_eq_true_2.
    + apply pass1_entry_keep in E as (key & _ & _ & ->); [|done].
      rewrite bool_decide_eq_false_2 by done. cbn.
      rewrite dom_insert_L.
      rewrite (comm_L (∪) {[Entry.start_line e]}).
      by rewrite <- (assoc_L (∪)).
Qed.

Lemma pass1_replacements_size fuel blocks st :
  pass1 fuel blocks initial_state = Some st ->
  NoDup (entry_lines blocks) ->
  size (entry_replacements st) = length (kept_entries ∅ (entries blocks)).
Proof.
  intros Hrun Hlines. rewrite <- size_dom, (pass1_replacements_dom _ _ _ _ Hrun).
  cbn. rewrite dom_empty_L, (left_id_L ∅ (∪)), size_list_to_set.
  - by rewrite length_fmap.
  - eapply sublist_NoDup; [exact Hlines|].
    apply fmap_sublist, kept_entries_sublist.
Qed.

(** X12.  A run without duplicate blocks whose Pass 1 ends (the entries
    starting on different lines) exits with status 0; on the standard
    output the script prints no conflict, then the output path and as count
    the number of entries kept; and it writes the output of Pass 2 to
    [<input>.reformatted]. *)
Theorem main_success_outcome
    (fuel : nat) (script input_file : Py.str)
    (parse_file : Py.str -> list Block) (st : State) :
  duplicate_blocks (parse_file input_file) = [] ->
  pass1 fuel (parse_file input_file) initial_state = Some st ->
  NoDup (entry_lines (parse_file input_file)) ->
  exists outcome,
    main fuel [script; input_file] parse_file = Some outcome /\
    exit_status outcome = 0%Z /\
    stdout outcome =
      [10; 9989] ++ Py.lit " Output written to " ++ input_file ++
      Py.lit ".reformatted" ++ [Py.newline] ++
      Py.lit "   Kept " ++
      Py.str_of_int
        (Z.of_nat (length (kept_entries ∅ (entries (parse_file input_file))))) ++
      Py.lit " unique entries." ++ [Py.newline] /\
    written outcome =
      Some (input_file ++ Py.lit ".reformatted",
            pass2 (entry_replacements st) (parse_file input_file)).
Proof.
  intros Hdups Hrun Hlines. unfold main. rewrite Hdups, Hrun.
  eexists. split; [reflexivity|]. cbn [exit_status stdout written].
  split; [done|]. split; [|done].
  rewrite (report_conflicts_silent _ _ _ _ Hrun).
  rewrite (pass1_replacements_size _ _ _ Hrun Hlines).
  unfold Py.print. rewrite app_nil_l. by rewrite <- !app_assoc.
Qed.

Lemma endswith_snoc s c : Py.endswith (s ++ [c]) [c] = true.
Proof.
  unfold Py.endswith. apply bool_decide_eq_true_2.
  rewrite length_app. cbn [length].
  replace (length s + 1 - 1)%nat with (length s) by lia.
  by rewrite drop_app_length.
Qed.

Lemma endswith_inv s c : Py.endswith s [c] = true -> exists s', s = s' ++ [c].
Proof.
  unfold Py.endswith. intros H%bool_decide_eq_true_1. cbn [length] in H.
  exists (take (length s - 1) s). rewrite <- H.
  by rewrite take_drop.
Qed.

Lemma emit_block_newline replacements block :
  emit_block replacements block = [] \/
  Py.endswith (emit_block replacements block) [Py.newline] = true.
Proof.
  unfold emit_block. destruct block as [e| |]; cbn [block_raw].
  - destruct (_ !! _); [right; apply endswith_snoc|by left].
  - destruct raw as [raw|]; [|right; apply endswith_snoc].
    destruct (Py.endswith raw _) eqn:E; right;
      [by rewrite app_nil_r|apply endswith_snoc].
  - destruct raw as [raw|]; [|right; apply endswith_snoc].
    destruct (Py.endswith raw _) eqn:E; right;
      [by rewrite app_nil_r|apply endswith_snoc].
Qed.

(** X13.  Whatever the blocks and the replacements, the text Pass 2 writes
    is empty or ends with a line break: every block's text is closed by
    one. *)
Theorem pass2_ends_with_newline
    (replacements : gmap Z Py.str) (blocks : list Block) :
  pass2 replacements blocks = [] \/
  Py.endswith (pass2 replacements blocks) [Py.newline] = true.
Proof.
  induction blocks as [|b blocks IH] using rev_ind; [by left|].
  rewrite pass2_app, (pass2_concat _ [b]). cbn [List.map concat].
  rewrite app_nil_r.
  destruct (emit_block_newline replacements b) as [->|Hnl].
  - by rewrite app_nil_r.
  - right. apply endswith_inv in Hnl as [s' ->].
    rewrite app_assoc. apply endswith_snoc.
Qed.

(** ** Field lookup *)

(** X14.  [get_field] is an exact, case-sensitive lookup by field name: it
    gives the default when no field has the name, and otherwise the value
    of the last field with that name. *)
Theorem get_field_exact_lookup (block : Entry.t) (name dflt : Py.str) :
  (Forall (fun f => Field.key f ≠ name) (Entry.fields block) ->
   get_field block name dflt = dflt /\ has_field block name = false) /\
  (forall before f after,
     Entry.fields block = before ++ f :: after ->
     Field.key f = name ->
     Forall (fun g => Field.key g ≠ name) after ->
     get_field block name dflt = Field.value f /\ has_field block name = true).
Proof.
  unfold get_field, has_field. rewrite fields_dict_lookup. split.
  - intros Hnone.
    replace (List.filter _ _) with (@nil Field.t); [done|].
    induction Hnone as [|f fields Hf _ IH]; [done|]. cbn [List.filter].
    unfold Py.eqb at 1. by rewrite bool_decide_eq_false_2.
  - intros before f after -> Hf Hafter.
    assert (Heq : Py.eqb (Field.key f) name = true)
      by (by apply bool_decide_eq_true_2).
    assert (Hnil : List.filter (fun g => Py.eqb (Field.key g) name) after = []).
    { induction Hafter as [|g fields Hg _ IH]; [done|]. cbn [List.filter].
      unfold Py.eqb at 1. by rewrite bool_decide_eq_false_2. }
    rewrite !List.filter_app. cbn [List.filter].
    by rewrite Heq, Hnil, !last_snoc.
Qed.

(** ** Surnames written before a comma *)

Lemma letter_not_space c :
  Py.is_ascii_letter c = true -> Py.isspace c = false /\ (c =? Py.comma) = false.
Proof.
  unfold Py.is_ascii_letter. intros H.
  assert (Hc : 65 <= c <= 122).
  { destruct (N.leb_spec 65 c), (N.leb_spec c 90), (N.leb_spec 97 c),
      (N.leb_spec c 122); cbn in H; try done; lia. }
  split.
  - unfold Py.isspace, Py.in_ranges. cbn [existsb fst snd].
    repeat match goal with
           | |- context [?a <=? ?b] =>
               destruct (N.leb_spec a b); try lia; cbn [andb orb]
           end; reflexivity.
  - apply N.eqb_neq. unfold Py.comma. lia.
Qed.

Lemma first_author_letters surname rest :
  Forall (fun c => Py.is_ascii_letter c = true) surname ->
  first_author (surname ++ Py.comma :: rest) =
  surname ++ Py.comma :: first_author rest.
Proof.
  induction 1 as [|c surname Hc _ IH].
  - cbn [app first_author and_separator_at]. by cbn.
  - cbn [app first_author and_separator_at].
    destruct (letter_not_space c Hc) as [-> _]. cbn [andb]. by rewrite IH.
Qed.

Lemma rstrip_cons_nonspace c s :
  Py.isspace c = false -> Py.rstrip (c :: s) = c :: Py.rstrip s.
Proof. intros Hc. cbn [Py.rstrip]. rewrite Hc. by destruct (Py.rstrip s). Qed.

Lemma rstrip_letters surname s :
  Forall (fun c => Py.is_ascii_letter c = true) surname ->
  Py.rstrip (surname ++ Py.comma :: s) = surname ++ Py.comma :: Py.rstrip s.
Proof.
  induction 1 as [|c surname Hc _ IH].
  - by apply rstrip_cons_nonspace.
  - cbn [app]. destruct (letter_not_space c Hc) as [Hsp _].
    by rewrite rstrip_cons_nonspace, IH.
Qed.

Lemma before_comma_letters surname s :
  Forall (fun c => Py.is_ascii_letter c = true) surname ->
  Py.before_char Py.comma (surname ++ Py.comma :: s) = surname /\
  Py.contains Py.comma (surname ++ Py.comma :: s) = true.
Proof.
  induction 1 as [|c surname Hc _ [IH1 IH2]]; [done|].
  destruct (letter_not_space c Hc) as [_ Hne].
  cbn [app Py.before_char]. rewrite Hne, IH1. split; [done|].
  unfold Py.contains in *. cbn [existsb]. rewrite IH2. apply orb_true_r.
Qed.

Lemma filter_letters_id s :
  Forall (fun c => Py.is_ascii_letter c = true) s ->
  List.filter Py.is_ascii_letter s = s.
Proof.
  induction 1 as [|c s Hc _ IH]; [done|]. cbn [List.filter].
  by rewrite Hc, IH.
Qed.

(** X15.  For an author field that starts with a surname of ASCII letters
    directly followed by a comma, the surname token is that surname in
    lower case, whatever follows the comma (given names, further
    authors). *)
Theorem extract_lastname_before_comma (surname rest : Py.str) :
  lower_is_ascii_on_letters ->
  surname ≠ [] ->
  Forall (fun c => Py.is_ascii_letter c = true) surname ->
  extract_lastname (surname ++ Py.comma :: rest) = Py.ascii_lower surname.
Proof.
  intros Hlower Hne Hletters.
  rewrite extract_lastname_unfold by (by destruct surname).
  cbn zeta. rewrite first_author_letters by done.
  unfold Py.strip. rewrite lstrip_id.
  - rewrite rstrip_letters by done.
    destruct (before_comma_letters surname (Py.rstrip (first_author rest)) Hletters)
      as [-> ->].
    rewrite filter_letters_id, Hlower by done.
    destruct surname; [done|reflexivity].
  - destruct Hletters as [|c surname Hc _]; [done|].
    cbn. by destruct (letter_not_space c Hc).
Qed.

(** ** Content words and the abbreviation *)

Lemma split_from_nonspace word s w :
  Forall (fun c => Py.isspace c = false) word ->
  w ∈ Py.split_from word s -> Forall (fun c => Py.isspace c = false) w.
Proof.
  revert word. induction s as [|d s IH]; intros word Hword;
    cbn [Py.split_from].
  - destruct word; [by intros ?%elem_of_nil|].
    by intros ->%list_elem_of_singleton.
  - destruct (Py.isspace d) eqn:E.
    + destruct word as [|w0 word]; [by apply IH|].
      intros [->|Hw]%elem_of_cons; [done|].
      apply (IH []); [constructor|done].
    + apply IH. apply Forall_app. split; [done|]. by constructor.
Qed.

(** X16.  Every content word of a title has at least two characters, is not
    a stop word, and contains neither white space nor a character of
    [string.punctuation]. *)
Theorem tokenize_content_words (title : Py.str) :
  Forall (fun w =>
            (2 <= length w)%nat /\ (w ∉ STOP_WORDS) /\
            Forall (fun c => Py.isspace c = false /\
                             Py.contains c Py.punctuation = false) w)
         (tokenize title).
Proof.
  apply Forall_forall. intros w.
  unfold tokenize. intros Hw%list_elem_of_In%filter_In.
  destruct Hw as [Hw [Hstop Hlen]%andb_true_iff].
  apply list_elem_of_In in Hw.
  split; [by apply Nat.ltb_lt in Hlen|]. split.
  { apply negb_true_iff in Hstop. by apply bool_decide_eq_false_1 in Hstop. }
  pose proof (split_from_nonspace [] _ w ltac:(constructor) Hw) as Hns.
  apply Forall_forall. intros c Hc. rewrite Forall_forall in Hns.
  split; [by apply Hns|].
  destruct (split_from_subset _ _ _ _ Hw Hc) as [?%elem_of_nil|Hin]; [done|].
  apply list_elem_of_In, in_map_iff in Hin as (d & Hd & _).
  cbn beta in Hd. destruct (Py.contains d Py.punctuation) eqn:E.
  - subst c. by specialize (Hns Py.space Hc).
  - by subst c.
Qed.

(** X17.  The abbreviation has at most three characters, and it is empty
    for an empty title, for a title without content words, and for every
    [n >= 2] whose window lies past the last (refined) content word. *)
Theorem extract_title_abbreviation_bounds
    (title : Py.str) (use_nlp : bool) (n : Z) :
  (length (extract_title_abbreviation title use_nlp n) <= 3)%nat /\
  (title = [] \/ tokenize title = [] \/
   ((2 <= n)%Z /\
    (Z.of_nat (length (refine use_nlp (tokenize title))) <= n - 2)%Z) ->
   extract_title_abbreviation title use_nlp n = []).
Proof.
  split.
  - unfold extract_title_abbreviation. destruct title; [cbn; lia|].
    destruct (tokenize _); [cbn; lia|]. rewrite length_take. lia.
  - intros [->|[Htok|[Hn Hlen]]]; [done| |by apply abbreviation_beyond_words].
    unfold extract_title_abbreviation. rewrite Htok. by destruct title.
Qed.

(** ** Duplicates and the state of Pass 1 *)

(** X19.  Dropped entries leave no trace: Pass 1 on the whole input and
    Pass 1 on the kept entries alone end in the same state (or both do not
    end). *)
Theorem pass1_on_kept_entries
    (fuel : nat) (blocks : list Block) (st : State) :
  pass1 fuel blocks st =
  pass1 fuel (EntryBlock <$> kept_entries (seen_titles st) (entries blocks)) st.
Proof.
  revert st. induction blocks as [|b blocks IH]; intros st; [done|].
  destruct b as [e| |]; cbn [pass1 pass1_block]; [|apply IH..].
  change (entries (EntryBlock e :: blocks)) with (e :: entries blocks).
  cbn [kept_entries].
  destruct (decide (ltitle e ∈ seen_titles st)) as [Hin|Hin].
  - rewrite pass1_entry_skip, bool_decide_eq_true_2 by done. apply IH.
  - rewrite bool_decide_eq_false_2 by done.
    cbn [fmap list_fmap pass1 pass1_block].
    destruct (pass1_entry fuel st e) as [st1|] eqn:E; [|done].
    rewrite IH. apply pass1_entry_keep in E as (key & _ & _ & ->); done.
Qed.

Lemma kept_entries_titles seen es :
  NoDup (ltitle <$> kept_entries seen es) /\
  (forall t, t ∈ ltitle <$> kept_entries seen es -> t ∉ seen) /\
  (forall e, e ∈ es ->
     ltitle e ∈ seen \/ ltitle e ∈ ltitle <$> kept_entries seen es).
Proof.
  revert seen. induction es as [|e es IH]; intros seen.
  - repeat split; [constructor|by intros ? ?%elem_of_nil..].
  - cbn [kept_entries]. case_bool_decide as Hin.
    + destruct (IH seen) as (Hnd & Hfresh & Hcover). repeat split; try done.
      intros e' [->|He']%elem_of_cons; [by left|by apply Hcover].
    + destruct (IH (seen ∪ {[ltitle e]})) as (Hnd & Hfresh & Hcover).
      cbn [fmap list_fmap]. repeat split.
      * constructor; [|done]. intros Ht%Hfresh. apply Ht.
        apply elem_of_union. right. by apply elem_of_singleton.
      * intros t [->|Ht]%elem_of_cons; [done|].
        intros Hseen. apply (Hfresh t Ht). apply elem_of_union. by left.
      * intros e' [->|He']%elem_of_cons; [right; left|].
        destruct (Hcover e' He') as [Hseen|?]; [|right; by right].
        apply elem_of_union in Hseen as [?|Heq]; [by left|].
        apply elem_of_singleton in Heq. rewrite Heq. right. left.
Qed.

Lemma usage_infos (keys : list Py.str) (kept : list Entry.t) :
  length keys = length kept ->
  concat (zip_with (fun key e => (key, [info_of e])) keys kept).*2 =
  info_of <$> kept.
Proof.
  revert kept. induction keys as [|k keys IH]; intros [|e kept] Hlen; try done.
  cbn. f_equal. apply IH. by injection Hlen.
Qed.

(** X20.  After a Pass 1 that ends, the titles recorded in [key_usage] are
    pairwise different when compared in lower case, and the lower-cased
    title of every entry of the input is among them: each title is
    represented once. *)
Theorem kept_titles_distinct_and_complete
    (fuel : nat) (blocks : list Block) (st : State) :
  pass1 fuel blocks initial_state = Some st ->
  let titles :=
    (fun info => str_lower (Info.title info)) <$> concat (key_usage st).*2 in
  NoDup titles /\
  (forall e, e ∈ entries blocks -> str_lower (title_of e) ∈ titles).
Proof.
  intros Hrun titles.
  destruct (pass1_usage _ _ _ _ Hrun) as (keys & Hlen & Husage & _).
  cbn in Hlen, Husage.
  assert (Htitles : titles = ltitle <$> kept_entries ∅ (entries blocks)).
  { unfold titles. rewrite Husage, usage_infos by done.
    rewrite <- list_fmap_compose. done. }
  rewrite Htitles.
  destruct (kept_entries_titles ∅ (entries blocks)) as (Hnd & _ & Hcover).
  split; [done|]. intros e He.
  destruct (Hcover e He) as [?%elem_of_empty|?]; done.
Qed.

End Script.

(** * Examples on concrete inputs

    The inputs are ASCII, where [str.lower] and [str.upper] are
    [Py.ascii_lower] and [Py.ascii_upper]. *)

(** C9 at a comment followed by entries. *)
Lemma pass2_preserves_other_blocks_example :
  pass2 ∅ ([] ++ a_comment :: [EntryBlock smith_deep]) =
    pass2 ∅ [] ++ Py.lit "% my references" ++
    (if Py.endswith (Py.lit "% my references") [Py.newline] then []
     else [Py.newline]) ++
    pass2 ∅ [EntryBlock smith_deep].
Proof.
  apply (pass2_preserves_other_blocks ∅ [] [EntryBlock smith_deep] a_comment);
    reflexivity.
Defined.

(** C6 at a library with one duplicate block. *)
Lemma duplicate_keys_abort_example :
  (Py.lit "k1", 6%Z) ∈ duplicate_blocks library_D /\
  exit_status <$>
    main Py.ascii_lower Py.ascii_upper no_nlp 0
      [Py.lit "format_bib.py"; Py.lit "refs.bib"] (fun _ => library_D) = Some 1%Z.
Proof.
  destruct (duplicate_keys_abort Py.ascii_lower Py.ascii_upper no_nlp 0
              (Py.lit "format_bib.py") (Py.lit "refs.bib") (fun _ => library_D)
              (Py.lit "k1") 6 (Some (Py.lit "@article{k1, title = {Other}}")))
    as [Hin Hmain].
  - unfold library_D. apply list_elem_of_further, list_elem_of_here.
  - split; [exact Hin|]. rewrite Hmain. reflexivity.
Defined.

(** C7 as stated fails on an entry whose only field is the title: the
    opening line keeps its comma. *)
Lemma format_entry_title_only_keeps_comma :
  format_entry title_only (Py.lit "unknown0000") (Py.lit "Only Title") =
    Py.lit "@book{unknown0000, title = {Only Title}," ++ [Py.newline] ++
    Py.lit "}" /\
  format_entry title_only (Py.lit "unknown0000") (Py.lit "Only Title") ≠
    format_entry_as_specified title_only (Py.lit "unknown0000")
      (Py.lit "Only Title").
Proof. split; [by vm_compute|]. vm_compute. discriminate. Qed.

(** C5 as stated fails in three ways: a field named [Year] is not found, four
    decimal digits outside ASCII are accepted, and white space around four
    digits is dropped. *)
Lemma year_of_differs_from_specified :
  (year_of year_mixed_case = Py.lit "0000" /\
   year_as_specified year_mixed_case = Py.lit "1990") /\
  (year_of year_arabic_indic = [1633; 1641; 1641; 1632] /\
   year_as_specified year_arabic_indic = Py.lit "0000") /\
  (year_of year_padded = Py.lit "1990" /\
   year_as_specified year_padded = Py.lit "0000").
Proof. repeat split; by vm_compute. Qed.

(** C4 as stated fails at the third escalation step: with eight content
    words the window is the seventh and eighth word, not the fifth and
    sixth, and the fourth entry of [library_walk] gets its key from them. *)
Lemma third_window_is_not_adjacent :
  selected eight_words (escalation_n 2) = [Py.lit "golf"; Py.lit "hotel"] /\
  window_as_specified eight_words 2 = [Py.lit "echo"; Py.lit "foxtrot"] /\
  (fun st => (key_usage st).*1) <$>
    pass1 Py.ascii_lower Py.ascii_upper no_nlp 4 library_walk initial_state =
  Some [Py.lit "smith2020"; Py.lit "smith2020ab"; Py.lit "smith2020abcd";
        Py.lit "smith2020abcdgh"].
Proof. repeat split; by vm_compute. Qed.

(** C1 on [library_A]: the third entry repeats the title of the first in
    another case and is dropped. *)
Lemma title_deduplication_example :
  exists st,
    pass1 Py.ascii_lower Py.ascii_upper no_nlp 4 library_A initial_state = Some st /\
    entry_replacements st !! Entry.start_line smith_deep_again = None /\
    is_Some (entry_replacements st !! Entry.start_line smith_deep).
Proof.
  destruct (pass1 Py.ascii_lower Py.ascii_upper no_nlp 4 library_A initial_state)
    as [st|] eqn:Hrun; [|vm_compute in Hrun; discriminate Hrun].
  exists st. split; [reflexivity|]. split.
  - destruct (title_deduplication Py.ascii_lower Py.ascii_upper no_nlp 4
                [a_comment; EntryBlock smith_deep; EntryBlock smith_graph]
                [EntryBlock title_only] smith_deep_again st)
      as (text & _ & _ & Hdrop).
    + exact Hrun.
    + by_computation.
    + apply Hdrop. by_computation.
  - destruct (title_deduplication Py.ascii_lower Py.ascii_upper no_nlp 4
                [a_comment]
                [EntryBlock smith_graph; EntryBlock smith_deep_again;
                 EntryBlock title_only] smith_deep st)
      as (text & _ & Hkeep & _).
    + exact Hrun.
    + by_computation.
    + destruct Hkeep as (key & Hkey & _).
      * by_computation.
      * rewrite Hkey. by eexists.
Defined.

(** C2 on [library_walk]: four entries with the same base key end with
    four different keys. *)
Lemma derived_keys_unique_example :
  exists st,
    pass1 Py.ascii_lower Py.ascii_upper no_nlp 4 library_walk initial_state = Some st /\
    NoDup (key_usage st).*1 /\
    Forall (fun usage => length (snd usage) = 1%nat) (key_usage st).
Proof.
  destruct (pass1 Py.ascii_lower Py.ascii_upper no_nlp 4 library_walk initial_state)
    as [st|] eqn:Hrun; [|vm_compute in Hrun; discriminate Hrun].
  exists st. split; [reflexivity|].
  destruct (derived_keys_unique Py.ascii_lower Py.ascii_upper no_nlp 4
              library_walk st Hrun) as (keys & _ & _ & _ & Hnodup & Hone & _).
  split; [exact Hnodup|exact Hone].
Defined.

(** C10 on [library_titleless]: the entry without a title is kept, the
    entry whose title is only braces and a space is dropped after it. *)
Lemma titleless_entries_deduplicate_example :
  exists st,
    pass1 Py.ascii_lower Py.ascii_upper no_nlp 1 library_titleless initial_state = Some st /\
    entry_replacements st !! Entry.start_line no_title_2 = None /\
    emit_block (entry_replacements st) (EntryBlock no_title_2) = [].
Proof.
  destruct (pass1 Py.ascii_lower Py.ascii_upper no_nlp 1 library_titleless
              initial_state)
    as [st|] eqn:Hrun; [|vm_compute in Hrun; discriminate Hrun].
  exists st. split; [reflexivity|].
  destruct (titleless_entries_deduplicate Py.ascii_lower Py.ascii_upper no_nlp 1
              [a_comment; EntryBlock no_title_1] [] no_title_2 st)
    as [_ Hdrop].
  - by intros [|c t].
  - exact Hrun.
  - by_computation.
  - right. vm_compute. reflexivity.
  - apply Hdrop. apply Exists_cons_hd. vm_compute. reflexivity.
Defined.

(** C3 fails on scenario E: after an entry by Smith of 2020, the entry
    titled with stop words only finds its base key taken and has nothing to
    append, so that no bound on the loop lets Pass 1, and the script, end.
    This holds whatever the tagger answers. *)
Theorem escalation_never_ends
    (spacy_nlp : Py.str -> option (list (Py.str * Py.str))) (fuel : nat) :
  (forall n,
     extract_title_abbreviation Py.ascii_lower Py.ascii_upper spacy_nlp
       (Py.lit "The Of And") true n = []) /\
  pass1 Py.ascii_lower Py.ascii_upper spacy_nlp fuel library_E initial_state = None /\
  main Py.ascii_lower Py.ascii_upper spacy_nlp fuel
    [Py.lit "format_bib.py"; Py.lit "refs.bib"] (fun _ => library_E) = None.
Proof.
  assert (Hpass1 :
    pass1 Py.ascii_lower Py.ascii_upper spacy_nlp fuel library_E initial_state = None).
  { apply (pass1_stuck Py.ascii_lower Py.ascii_upper spacy_nlp fuel
             [EntryBlock smith_deep] stop_words_only []).
    - intros st1 Hst1. destruct fuel as [|fuel]; [discriminate Hst1|].
      vm_compute in Hst1. injection Hst1 as <-.
      split; [by_computation|by vm_compute].
    - intros n. reflexivity. }
  split; [intros n; reflexivity|]. split; [exact Hpass1|].
  unfold main. change (duplicate_blocks library_E) with (@nil (Py.str * Z)).
  cbv beta iota zeta. by rewrite Hpass1.
Qed.

(** * Further examples *)

(** X4 at an author list with a particle and a second author. *)
Lemma extract_lastname_lowercase_letters_example :
  extract_lastname Py.ascii_lower (Py.lit "Ludwig van Beethoven and J. S. Bach") ≠ [] /\
  forallb is_lower_letter
    (extract_lastname Py.ascii_lower (Py.lit "Ludwig van Beethoven and J. S. Bach")) = true.
Proof.
  apply (extract_lastname_lowercase_letters Py.ascii_lower).
  intros s _. reflexivity.
Defined.

(** X5 at an author field of digits and punctuation. *)
Lemma extract_lastname_without_letters_example :
  extract_lastname Py.ascii_lower (Py.lit "1234, 56.") = Py.lit "unknown".
Proof.
  apply (extract_lastname_without_letters Py.ascii_lower).
  - intros s _. reflexivity.
  - vm_compute. reflexivity.
Defined.

(** X7 at an entry with a title only. *)
Lemma base_key_without_author_and_year_example :
  base_key Py.ascii_lower title_only = Py.lit "unknown0000".
Proof.
  apply (base_key_without_author_and_year Py.ascii_lower).
  - intros s _. reflexivity.
  - repeat constructor. by_computation.
Defined.

(** X9: the title [Alpha Bravo] has two content words; with [smith2020]
    and [smith2020ab] taken the loop does not end. *)
Lemma escalate_never_ends_past_words_example :
  escalate Py.ascii_lower Py.ascii_upper no_nlp 1000 usage_two_taken
    (Py.lit "Alpha Bravo") (Py.lit "smith2020") 2 = None.
Proof.
  apply (escalate_never_ends_past_words Py.ascii_lower Py.ascii_upper no_nlp
           usage_two_taken (Py.lit "Alpha Bravo") (Py.lit "smith2020") 1 1000).
  - intros [|[|i]] Hi; [by vm_compute|by vm_compute|lia].
  - vm_compute. discriminate.
Defined.

(** X10 on [library_walk]. *)
Lemma derived_keys_start_with_base_key_example :
  exists st,
    pass1 Py.ascii_lower Py.ascii_upper no_nlp 4 library_walk initial_state = Some st /\
    Forall (fun usage => Py.lit "smith2020" `prefix_of` fst usage) (key_usage st).
Proof.
  destruct (pass1 Py.ascii_lower Py.ascii_upper no_nlp 4 library_walk initial_state)
    as [st|] eqn:Hrun; [|vm_compute in Hrun; discriminate Hrun].
  exists st. split; [reflexivity|].
  pose proof (derived_keys_start_with_base_key Py.ascii_lower Py.ascii_upper
                no_nlp 4 library_walk st Hrun) as Hall.
  assert (Hbase : Forall (fun e => base_key Py.ascii_lower e = Py.lit "smith2020")
                         (entries library_walk))
    by (repeat (constructor; [by vm_compute|]); constructor).
  eapply Forall_impl; [exact Hall|]. intros usage (e & He & _ & Hprefix).
  rewrite Forall_forall in Hbase. rewrite <- (Hbase e He). exact Hprefix.
Defined.

(** X12 on [library_A]: three of the four entries are kept. *)
Lemma main_success_outcome_example :
  exit_status <$>
    main Py.ascii_lower Py.ascii_upper no_nlp 4
      [Py.lit "format_bib.py"; Py.lit "refs.bib"] (fun _ => library_A) = Some 0%Z /\
  length (kept_entries Py.ascii_lower ∅ (entries library_A)) = 3%nat.
Proof.
  destruct (pass1 Py.ascii_lower Py.ascii_upper no_nlp 4 library_A initial_state)
    as [st|] eqn:Hrun; [|vm_compute in Hrun; discriminate Hrun].
  split; [|by vm_compute].
  destruct (main_success_outcome Py.ascii_lower Py.ascii_upper no_nlp 4
              (Py.lit "format_bib.py") (Py.lit "refs.bib") (fun _ => library_A) st)
    as (outcome & Hmain & Hexit & _).
  - reflexivity.
  - exact Hrun.
  - by_computation.
  - rewrite Hmain. cbn [fmap option_fmap option_map]. by rewrite Hexit.
Defined.

(** X15 at [Smith, J. and Doe, A.]. *)
Lemma extract_lastname_before_comma_example :
  extract_lastname Py.ascii_lower (Py.lit "Smith" ++ Py.comma :: Py.lit " J. and Doe, A.") =
  Py.lit "smith".
Proof.
  apply (extract_lastname_before_comma Py.ascii_lower (Py.lit "Smith")).
  - intros s _. reflexivity.
  - vm_compute. discriminate.
  - repeat (constructor; [reflexivity|]). constructor.
Defined.

(** X18 without any argument. *)
Lemma main_usage_example :
  main Py.ascii_lower Py.ascii_upper no_nlp 0 [Py.lit "format_bib.py"]
    (fun _ => library_A) =
  Some (mkOutcome 1 (Py.lit "Usage: python script.py input.bib" ++ [Py.newline])
          [] None).
Proof.
  apply (main_usage Py.ascii_lower Py.ascii_upper no_nlp 0
           [Py.lit "format_bib.py"]).
  cbn. lia.
Defined.

(** X20 on [library_A]: three titles, the repeated one once. *)
Lemma kept_titles_distinct_and_complete_example :
  exists st,
    pass1 Py.ascii_lower Py.ascii_upper no_nlp 4 library_A initial_state = Some st /\
    NoDup ((fun info => Py.ascii_lower (Info.title info)) <$>
             concat (key_usage st).*2).
Proof.
  destruct (pass1 Py.ascii_lower Py.ascii_upper no_nlp 4 library_A initial_state)
    as [st|] eqn:Hrun; [|vm_compute in Hrun; discriminate Hrun].
  exists st. split; [reflexivity|].
  apply (kept_titles_distinct_and_complete Py.ascii_lower Py.ascii_upper no_nlp
           4 library_A st Hrun).
Defined.

(** * Runs that do not end, and entries on one line *)

Lemma library_E_never_ends
    (spacy_nlp : Py.str -> option (list (Py.str * Py.str))) (fuel : nat) :
  pass1 Py.ascii_lower Py.ascii_upper spacy_nlp fuel library_E initial_state = None.
Proof.
  apply (pass1_stuck Py.ascii_lower Py.ascii_upper spacy_nlp fuel
           [EntryBlock smith_deep] stop_words_only []).
  - intros st1 Hst1. destruct fuel as [|fuel]; [discriminate Hst1|].
    vm_compute in Hst1. injection Hst1 as <-.
    split; [by_computation|by vm_compute].
  - intros n. reflexivity.
Qed.

Lemma library_titleless_stuck_never_ends
    (spacy_nlp : Py.str -> option (list (Py.str * Py.str))) (fuel : nat) :
  pass1 Py.ascii_lower Py.ascii_upper spacy_nlp fuel library_titleless_stuck
    initial_state = None.
Proof.
  apply (pass1_stuck Py.ascii_lower Py.ascii_upper spacy_nlp fuel
           [EntryBlock doe_titled] no_title_1 []).
  - intros st1 Hst1. destruct fuel as [|fuel]; [discriminate Hst1|].
    vm_compute in Hst1. injection Hst1 as <-.
    split; [by_computation|by vm_compute].
  - intros n. reflexivity.
Qed.

(** C1 as stated fails in two ways.  The two entries of [library_E] have
    different titles and lines, yet no run of Pass 1 on them ends, so that
    neither is ever written.  And in [library_same_line] the second entry
    repeats the title of the first and is skipped by Pass 1, but it is
    reported on the same line, finds the replacement text of the first
    under that line and is written by Pass 2. *)
Lemma title_deduplication_as_stated_fails :
  (ltitle Py.ascii_lower smith_deep ≠ ltitle Py.ascii_lower stop_words_only /\
   NoDup (entry_lines library_E) /\
   ~ exists fuel st,
       pass1 Py.ascii_lower Py.ascii_upper no_nlp fuel library_E initial_state =
       Some st) /\
  (ltitle Py.ascii_lower same_line_dup = ltitle Py.ascii_lower smith_deep /\
   (fun st => (key_usage st).*1) <$>
     pass1 Py.ascii_lower Py.ascii_upper no_nlp 1 library_same_line initial_state =
   Some [Py.lit "smith2020"] /\
   (fun st => emit_block (entry_replacements st) (EntryBlock same_line_dup)) <$>
     pass1 Py.ascii_lower Py.ascii_upper no_nlp 1 library_same_line initial_state =
   Some (format_entry smith_deep (Py.lit "smith2020")
           (Py.lit "Deep Learning for X") ++ [Py.newline])).
Proof.
  split; [split; [|split]|split; [|split]].
  - vm_compute. discriminate.
  - by_computation.
  - intros (fuel & st & Hrun). by rewrite library_E_never_ends in Hrun.
  - by vm_compute.
  - by vm_compute.
  - by vm_compute.
Qed.

(** C10 as stated fails in two ways.  In [library_titleless_stuck] the
    entry without a title is the first of its kind, but its base key is
    taken and an empty title has no abbreviation: no run of Pass 1 ends and
    the entry is never kept.  And in [library_titleless_same_line] the
    second entry without a title is skipped by Pass 1 but written by Pass 2
    with the replacement text of the first, reported on the same line. *)
Lemma titleless_entries_as_stated_fails :
  (title_of no_title_1 = [] /\ title_of doe_titled ≠ [] /\
   NoDup (entry_lines library_titleless_stuck) /\
   ~ exists fuel st,
       pass1 Py.ascii_lower Py.ascii_upper no_nlp fuel library_titleless_stuck
         initial_state = Some st) /\
  (title_of no_title_1 = [] /\ title_of no_title_same_line = [] /\
   (fun st => (key_usage st).*1) <$>
     pass1 Py.ascii_lower Py.ascii_upper no_nlp 1 library_titleless_same_line
       initial_state =
   Some [Py.lit "doe2001"] /\
   (fun st =>
      emit_block (entry_replacements st) (EntryBlock no_title_same_line)) <$>
     pass1 Py.ascii_lower Py.ascii_upper no_nlp 1 library_titleless_same_line
       initial_state =
   Some (format_entry no_title_1 (Py.lit "doe2001") [] ++ [Py.newline])).
Proof.
  split; [split; [|split; [|split]]|split; [|split; [|split]]].
  - by vm_compute.
  - vm_compute. discriminate.
  - by_computation.
  - intros (fuel & st & Hrun).
    by rewrite library_titleless_stuck_never_ends in Hrun.
  - by vm_compute.
  - by vm_compute.
  - by vm_compute.
  - by vm_compute.
Qed.
